(** * Request-lifecycle controllers and the order-status renderer

    A shallow embedding of the three client-side scripts of the repository:

    - [frontend/assets/js/chat-agent.js]  (module [ChatAgent]),
    - [frontend/script.js]                (module [Script]),
    - the order-status script             (module [OrderStatus]).

    Each script registers one asynchronous [submit] listener.  A listener
    runs synchronously up to its [await fetch(...)], is suspended there, and
    is resumed when the fetch settles.  The embedding therefore splits every
    listener in two transition functions over an explicit page state: the
    part before the suspension ([submit]) and the continuation
    ([on_settled]).  The page itself is driven by events: the user edits the
    input, a submit event is dispatched, an outstanding fetch settles.

    Modelling conventions.
    - Strings are sequences of code units below 256 ([string]); the text of
      the order-status input field, which goes through
      [encodeURIComponent], is kept at full width ([UTF16.wide]).
    - Numbers are IEEE-754 binary64 values ([spec_float] at precision 53).
    - A property of a parsed JSON object is [undefined] (key missing),
      [null], or a value of the type the backend contract gives it.
    - The page markup is taken to define every element the scripts look up,
      so every [getElementById] succeeds.
    - Scrolling and focus are not part of the state. *)

From Stdlib Require Import ZArith NArith List String Ascii Bool Lia.
From Stdlib Require Import DecimalString.
From Stdlib Require Import Floats.SpecFloat.
Import ListNotations.
Local Open Scope string_scope.

(** ** JavaScript values and built-ins used by the scripts *)

Module JS.

(** A property read [obj.key] on a parsed JSON object. *)
Inductive field (A : Type) : Type :=
| Undefined
| Null
| Val (a : A).
Arguments Undefined {A}.
Arguments Null {A}.
Arguments Val {A} a.

Definition absent {A} (f : field A) : bool :=
  match f with Val _ => false | _ => true end.

(** *** Strings *)

(** [WhiteSpace] and [LineTerminator] code units below 256:
    TAB, LF, VT, FF, CR, SP and NBSP. *)
Definition is_whitespace (c : ascii) : bool :=
  let n := N_of_ascii c in
  ((9 <=? n) && (n <=? 13) || (n =? 32) || (n =? 160))%N.

Fixpoint trimStart (s : string) : string :=
  match s with
  | EmptyString => EmptyString
  | String c r => if is_whitespace c then trimStart r else s
  end.

Fixpoint trimEnd (s : string) : string :=
  match s with
  | EmptyString => EmptyString
  | String c r =>
      match trimEnd r with
      | EmptyString => if is_whitespace c then EmptyString else String c EmptyString
      | r' => String c r'
      end
  end.

(** [String.prototype.trim] *)
Definition trim (s : string) : string := trimEnd (trimStart s).

(** [!s] for a string [s]: only the empty string is falsy. *)
Definition string_falsy (s : string) : bool :=
  match s with EmptyString => true | _ => false end.

(** [!f] for a property holding a string. *)
Definition field_falsy (f : field string) : bool :=
  match f with
  | Val s => string_falsy s
  | _ => true
  end.

(** [`${f}`]: a template substitution of a property holding a string. *)
Definition interpolate (f : field string) : string :=
  match f with
  | Undefined => "undefined"
  | Null => "null"
  | Val s => s
  end.

(** Assignment to [innerText] / [textContent]: [null] is the empty string,
    [undefined] is stringified. *)
Definition text_of (f : field string) : string :=
  match f with
  | Undefined => "undefined"
  | Null => EmptyString
  | Val s => s
  end.

(** Assignment to [textContent], a nullable attribute: [null] and
    [undefined] both leave the element without text. *)
Definition textContent_of (f : field string) : string :=
  match f with
  | Val s => s
  | _ => EmptyString
  end.

(** The double quote and the line feed, for markup written in the scripts. *)
Definition dq : string := String (ascii_of_N 34) EmptyString.
Definition nl : string := String (ascii_of_N 10) EmptyString.

(** [s.split('T')[0]]: the part of [s] before the first ['T']. *)
Fixpoint before_T (s : string) : string :=
  match s with
  | EmptyString => EmptyString
  | String c r => if Ascii.eqb c "T" then EmptyString else String c (before_T r)
  end.

(** Decimal digits of an integer, as [ToString] prints them. *)
Definition digits (n : N) : string := NilZero.string_of_uint (N.to_uint n).

Definition Z_toString (z : Z) : string :=
  if (z <? 0)%Z then "-" ++ digits (Z.abs_N z) else digits (Z.abs_N z).

(** *** [encodeURIComponent] *)

Definition is_unreserved (c : ascii) : bool :=
  let n := N_of_ascii c in
  ((65 <=? n) && (n <=? 90) || (97 <=? n) && (n <=? 122)
   || (48 <=? n) && (n <=? 57)
   || (n =? 45) || (n =? 95) || (n =? 46) || (n =? 33) || (n =? 126)
   || (n =? 42) || (n =? 39) || (n =? 40) || (n =? 41))%N.

Definition hex_digit (n : N) : ascii :=
  ascii_of_N (if (n <? 10)%N then 48 + n else 55 + n)%N.

Definition percent (byte : N) : string :=
  String "%" (String (hex_digit (byte / 16)) (String (hex_digit (byte mod 16)) EmptyString)).

(** *** Numbers *)

Definition number : Type := spec_float.

Definition prec : Z := 53.
Definition emax : Z := 1024.

(** The number nearest to [m * 2^e] (a finite JSON literal, once parsed). *)
Definition dyadic (m e : Z) : number := binary_normalize prec emax m e false.

Definition zero : number := S754_zero false.

(** [a + b] on numbers. *)
Definition add (a b : number) : number := SFadd prec emax a b.

Definition is_nan (x : number) : bool :=
  match x with S754_nan => true | _ => false end.

(** [!x] for a number: [+0], [-0] and [NaN] are falsy. *)
Definition number_falsy (x : number) : bool :=
  match x with
  | S754_zero _ | S754_nan => true
  | _ => false
  end.

(** [(f || 0)] for a property holding a number. *)
Definition or_zero (f : field number) : number :=
  match f with
  | Val x => if number_falsy x then zero else x
  | _ => zero
  end.

(** [x >= 10^21] for [x = m * 2^e]. *)
Definition ge_1e21 (m : positive) (e : Z) : bool :=
  if (0 <=? e)%Z then (10 ^ 21 <=? Z.pos m * 2 ^ e)%Z
  else (10 ^ 21 * 2 ^ (- e) <=? Z.pos m)%Z.

(** The integer [n] for which [n / 100 - m * 2^e] is closest to zero, the
    larger one of two. *)
Definition nearest_hundredths (m : positive) (e : Z) : N :=
  if (0 <=? e)%Z then Z.to_N (Z.pos m * 2 ^ e * 100)
  else Z.to_N ((2 * (Z.pos m * 100) + 2 ^ (- e)) / (2 * 2 ^ (- e))).

Fixpoint zeros (k : nat) : string :=
  match k with O => EmptyString | S k' => String "0" (zeros k') end.

(** Steps 11.c-d of [Number.prototype.toFixed] for two fraction digits:
    pad the digits of [n] to three places, put the point before the last
    two. *)
Definition point2 (n : N) : string :=
  let m := digits n in
  let m := if (String.length m <=? 2)%nat then zeros (3 - String.length m) ++ m else m in
  let k := String.length m in
  substring 0 (k - 2) m ++ "." ++ substring (k - 2) 2 m.

(** [x.toFixed(2)].  [big] stands for [Number::toString] on the finite
    numbers of magnitude [10^21] and above, which print in exponent
    notation. *)
Definition toFixed2 (big : number -> string) (x : number) : string :=
  match x with
  | S754_nan => "NaN"
  | S754_infinity false => "Infinity"
  | S754_infinity true => "-Infinity"
  | S754_zero _ => "0.00"
  | S754_finite s m e =>
      (if s then "-" else EmptyString) ++
      (if ge_1e21 m e then big (S754_finite false m e)
       else point2 (nearest_hundredths m e))
  end.

End JS.

(** ** Strings at full width

    The order-status listener hands its input to [encodeURIComponent],
    whose result depends on surrogate pairs; the text of its input field is
    therefore kept as UTF-16 code units. *)

Module UTF16.
Import JS.

(** A 16-bit code unit, as its high and its low byte. *)
Definition code_unit : Type := (ascii * ascii)%type.

Definition wide : Type := list code_unit.

Definition code (u : code_unit) : N :=
  (256 * N_of_ascii (fst u) + N_of_ascii (snd u))%N.

(** The wide string of a text of code units below 256. *)
Definition of_string (s : string) : wide :=
  map (fun c => (Ascii.zero, c)) (list_ascii_of_string s).

(** [WhiteSpace] and [LineTerminator]. *)
Definition is_whitespace (u : code_unit) : bool :=
  let n := code u in
  ((9 <=? n) && (n <=? 13) || (n =? 32) || (n =? 160) || (n =? 5760)
   || (8192 <=? n) && (n <=? 8202)
   || (n =? 8232) || (n =? 8233) || (n =? 8239) || (n =? 8287)
   || (n =? 12288) || (n =? 65279))%N.

Fixpoint trimStart (s : wide) : wide :=
  match s with
  | [] => []
  | u :: r => if is_whitespace u then trimStart r else s
  end.

Fixpoint trimEnd (s : wide) : wide :=
  match s with
  | [] => []
  | u :: r =>
      match trimEnd r with
      | [] => if is_whitespace u then [] else [u]
      | r' => u :: r'
      end
  end.

(** [String.prototype.trim] *)
Definition trim (s : wide) : wide := trimEnd (trimStart s).

(** [!s]: only the empty string is falsy. *)
Definition falsy (s : wide) : bool :=
  match s with [] => true | _ => false end.

Definition is_high_surrogate (u : code_unit) : bool :=
  ((55296 <=? code u) && (code u <=? 56319))%N.

Definition is_low_surrogate (u : code_unit) : bool :=
  ((56320 <=? code u) && (code u <=? 57343))%N.

(** The code points of the string, read as [CodePointAt] reads them;
    [None] when a surrogate is not part of a pair. *)
Fixpoint codePoints (s : wide) : option (list N) :=
  match s with
  | [] => Some []
  | u :: r =>
      if is_high_surrogate u then
        match r with
        | l :: r' =>
            if is_low_surrogate l then
              option_map
                (cons (65536 + (code u - 55296) * 1024 + (code l - 56320))%N)
                (codePoints r')
            else None
        | [] => None
        end
      else if is_low_surrogate u then None
      else option_map (cons (code u)) (codePoints r)
  end.

(** The UTF-8 octets of a code point. *)
Definition utf8 (cp : N) : list N :=
  (if cp <? 128 then [cp]
   else if cp <? 2048 then [192 + cp / 64; 128 + cp mod 64]
   else if cp <? 65536 then
     [224 + cp / 4096; 128 + (cp / 64) mod 64; 128 + cp mod 64]
   else
     [240 + cp / 262144; 128 + (cp / 4096) mod 64;
      128 + (cp / 64) mod 64; 128 + cp mod 64])%N.

(** An unreserved character stands for itself; any other code point is
    written as its UTF-8 octets, each escaped. *)
Definition encode_point (cp : N) : string :=
  if (cp <? 128)%N && is_unreserved (ascii_of_N cp)
  then String (ascii_of_N cp) EmptyString
  else String.concat EmptyString (map percent (utf8 cp)).

(** [encodeURIComponent]; [None] is the [URIError] thrown on a surrogate
    that is not part of a pair. *)
Definition encodeURIComponent (s : wide) : option string :=
  option_map (fun cps => String.concat EmptyString (map encode_point cps))
    (codePoints s).

End UTF16.

(** ** The network: how a [fetch] settles *)

Module Net.

(** What [await response.json()] gives: a rejection when the body is not
    JSON, the value [null], a value that is no object the scripts know (a
    number, a string, a boolean, an array), or an object.  A property read
    on [null] throws; on a number, string, boolean or array every property
    the scripts read is [undefined]. *)
Inductive json (A : Type) : Type :=
| NotJson
| JsonNull
| JsonOther
| JsonObject (o : A).
Arguments NotJson {A}.
Arguments JsonNull {A}.
Arguments JsonOther {A}.
Arguments JsonObject {A} o.

(** A settled [fetch]: the promise rejects (transport failure) or resolves
    with a response. *)
Inductive settled (A : Type) : Type :=
| Rejected
| Response (status : Z) (body : json A).
Arguments Rejected {A}.
Arguments Response {A} status body.

(** [response.ok] *)
Definition ok (status : Z) : bool := ((200 <=? status) && (status <=? 299))%Z.

(** What a [catch] block receives. *)
Inductive exn : Type :=
| FetchFailed                 (* the TypeError of a rejected fetch *)
| SyntaxError                 (* response.json() on a malformed body *)
| TypeError                   (* a property read on null or undefined *)
| Error (message : string).   (* throw new Error(message) *)

(** A [try] block either throws or completes with a value. *)
Definition completion (A : Type) : Type := (exn + A)%type.

End Net.

(** ** frontend/assets/js/chat-agent.js *)

Module ChatAgent.
Import JS Net.

Definition AGENT_PROXY_ENDPOINT : string :=
  "https://my-unique-business-api.azurewebsites.net/api/chat-with-agent".

Inductive role : Type := user | assistant.

Record ConversationMessage : Type :=
  { msg_role : role; content : string }.

(** A [div.chat-message.<sender>-message] holding one paragraph, whose
    content was last written through [innerText] or through [innerHTML]. *)
Inductive paragraph : Type :=
| innerText (text : string)
| innerHTML (markup : string).

Record message_element : Type :=
  { sender : role; body : paragraph }.

(** The JSON object of a response body, read at [reply] and [detail]. *)
Record reply_body : Type :=
  { reply : field string; detail : field string }.

(** What the property reads give on a body without these properties. *)
Definition no_properties : reply_body :=
  {| reply := Undefined; detail := Undefined |}.

(** The body of the POST request: [JSON.stringify({message: userMessage})],
    kept as the message it carries. *)
Record request : Type :=
  { url : string; message : string }.

Record state : Type :=
  { conversationHistory : list ConversationMessage;
    chatInput_value : string;
    chatInput_disabled : bool;
    chatSubmitButton_disabled : bool;
    chatSubmitButton_innerText : string;
    chatWindow : list message_element;
    (* one entry per listener suspended at [await fetch]: the index in
       [chatWindow] of its [assistantMessageElement] *)
    in_flight : list nat;
    (* every call of [fetch], oldest first *)
    fetched : list request;
    (* every [console.error], oldest first *)
    console : list exn }.

Definition greeting : ConversationMessage :=
  {| msg_role := assistant; content := "Hello! How can I help you today?" |}.

(** The state when [DOMContentLoaded] has run: an empty enabled form. *)
Definition initial : state :=
  {| conversationHistory := [greeting];
     chatInput_value := EmptyString;
     chatInput_disabled := false;
     chatSubmitButton_disabled := false;
     chatSubmitButton_innerText := "Send";
     chatWindow := [];
     in_flight := [];
     fetched := [];
     console := [] |}.

(** [addMessageToWindow(sender, message)]: appends the element and returns
    the reference to its paragraph. *)
Definition addMessageToWindow (who : role) (text : string) (st : state)
  : nat * state :=
  (List.length (chatWindow st),
   {| conversationHistory := conversationHistory st;
      chatInput_value := chatInput_value st;
      chatInput_disabled := chatInput_disabled st;
      chatSubmitButton_disabled := chatSubmitButton_disabled st;
      chatSubmitButton_innerText := chatSubmitButton_innerText st;
      chatWindow := chatWindow st ++ [{| sender := who; body := innerText text |}];
      in_flight := in_flight st;
      fetched := fetched st;
      console := console st |}).

Definition setFormDisabled (isDisabled : bool) (st : state) : state :=
  {| conversationHistory := conversationHistory st;
     chatInput_value := chatInput_value st;
     chatInput_disabled := isDisabled;
     chatSubmitButton_disabled := isDisabled;
     chatSubmitButton_innerText := if isDisabled then "Thinking..." else "Send";
     chatWindow := chatWindow st;
     in_flight := in_flight st;
     fetched := fetched st;
     console := console st |}.

(** [conversationHistory.push(m)] *)
Definition push (m : ConversationMessage) (st : state) : state :=
  {| conversationHistory := conversationHistory st ++ [m];
     chatInput_value := chatInput_value st;
     chatInput_disabled := chatInput_disabled st;
     chatSubmitButton_disabled := chatSubmitButton_disabled st;
     chatSubmitButton_innerText := chatSubmitButton_innerText st;
     chatWindow := chatWindow st;
     in_flight := in_flight st;
     fetched := fetched st;
     console := console st |}.

(** [chatInput.value = v] *)
Definition set_value (v : string) (st : state) : state :=
  {| conversationHistory := conversationHistory st;
     chatInput_value := v;
     chatInput_disabled := chatInput_disabled st;
     chatSubmitButton_disabled := chatSubmitButton_disabled st;
     chatSubmitButton_innerText := chatSubmitButton_innerText st;
     chatWindow := chatWindow st;
     in_flight := in_flight st;
     fetched := fetched st;
     console := console st |}.

(** [fetch(AGENT_PROXY_ENDPOINT, ...)] followed by the suspension of the
    listener that holds [element]. *)
Definition fetch (userMessage : string) (element : nat) (st : state) : state :=
  {| conversationHistory := conversationHistory st;
     chatInput_value := chatInput_value st;
     chatInput_disabled := chatInput_disabled st;
     chatSubmitButton_disabled := chatSubmitButton_disabled st;
     chatSubmitButton_innerText := chatSubmitButton_innerText st;
     chatWindow := chatWindow st;
     in_flight := in_flight st ++ [element];
     fetched := fetched st ++ [{| url := AGENT_PROXY_ENDPOINT; message := userMessage |}];
     console := console st |}.

Fixpoint replace_nth {A} (i : nat) (x : A) (l : list A) : list A :=
  match l, i with
  | [], _ => []
  | _ :: t, O => x :: t
  | h :: t, S j => h :: replace_nth j x t
  end.

(** A write to the paragraph [element] refers to. *)
Definition set_paragraph (element : nat) (p : paragraph) (st : state) : state :=
  {| conversationHistory := conversationHistory st;
     chatInput_value := chatInput_value st;
     chatInput_disabled := chatInput_disabled st;
     chatSubmitButton_disabled := chatSubmitButton_disabled st;
     chatSubmitButton_innerText := chatSubmitButton_innerText st;
     chatWindow :=
       match nth_error (chatWindow st) element with
       | Some m => replace_nth element {| sender := sender m; body := p |} (chatWindow st)
       | None => chatWindow st
       end;
     in_flight := in_flight st;
     fetched := fetched st;
     console := console st |}.

Definition console_error (e : exn) (st : state) : state :=
  {| conversationHistory := conversationHistory st;
     chatInput_value := chatInput_value st;
     chatInput_disabled := chatInput_disabled st;
     chatSubmitButton_disabled := chatSubmitButton_disabled st;
     chatSubmitButton_innerText := chatSubmitButton_innerText st;
     chatWindow := chatWindow st;
     in_flight := in_flight st;
     fetched := fetched st;
     console := console st ++ [e] |}.

(** The listener resumes: its entry leaves [in_flight]. *)
Fixpoint remove_nth {A} (k : nat) (l : list A) : list A :=
  match l, k with
  | [], _ => []
  | _ :: t, O => t
  | h :: t, S j => h :: remove_nth j t
  end.

Definition resume (k : nat) (st : state) : state :=
  {| conversationHistory := conversationHistory st;
     chatInput_value := chatInput_value st;
     chatInput_disabled := chatInput_disabled st;
     chatSubmitButton_disabled := chatSubmitButton_disabled st;
     chatSubmitButton_innerText := chatSubmitButton_innerText st;
     chatWindow := chatWindow st;
     in_flight := remove_nth k (in_flight st);
     fetched := fetched st;
     console := console st |}.

(** The submit listener up to its [await fetch(...)]. *)
Definition submit (st : state) : state :=
  let userMessage := trim (chatInput_value st) in
  if string_falsy userMessage then st
  else
    let (_, st) := addMessageToWindow user userMessage st in
    let st := push {| msg_role := user; content := userMessage |} st in
    let st := set_value EmptyString st in
    let st := setFormDisabled true st in
    let (assistantMessageElement, st) := addMessageToWindow assistant "..." st in
    fetch userMessage assistantMessageElement st.

(** [`${errorData.detail || 'Unknown error'}`] *)
Definition detail_or_unknown (errorData : reply_body) : string :=
  if field_falsy (detail errorData) then "Unknown error"
  else interpolate (detail errorData).

Definition api_error (status : Z) (errorData : reply_body) : exn :=
  Error ("API Error: " ++ Z_toString status ++ " - " ++ detail_or_unknown errorData).

(** The [try] block from the point where the fetch has settled: it throws,
    or completes with [fullReply]. *)
Definition try_block (r : settled reply_body) : completion (field string) :=
  match r with
  | Rejected => inl FetchFailed
  | Response status body =>
      if negb (ok status) then
        match body with
        | NotJson => inl SyntaxError
        | JsonNull => inl TypeError
        | JsonOther => inl (api_error status no_properties)
        | JsonObject errorData => inl (api_error status errorData)
        end
      else
        match body with
        | NotJson => inl SyntaxError
        | JsonNull => inl TypeError
        | JsonOther => inr (reply no_properties)
        | JsonObject data => inr (reply data)
        end
  end.

Definition apology : string :=
  "<p style=" ++ dq ++ "color: #ff7b7b;" ++ dq
  ++ ">Sorry, an error occurred. Please try again later.</p>".

(** The continuation of the listener holding [assistantMessageElement]:
    the rest of [try], then [catch], then [finally]. *)
Definition on_settled (assistantMessageElement : nat) (r : settled reply_body)
  (st : state) : state :=
  let st :=
    match try_block r with
    | inr fullReply =>
        set_paragraph assistantMessageElement (innerText (text_of fullReply)) st
    | inl error =>
        let st := console_error error st in
        set_paragraph assistantMessageElement (innerHTML apology) st
    end in
  setFormDisabled false st.

(** What can happen to the page.  A [SubmitEvent] runs the listener whether
    or not the button is disabled: the listener itself never looks at the
    button. *)
Inductive event : Type :=
| Typed (text : string)        (* the user edits the input field *)
| SubmitEvent                  (* a submit event reaches the form *)
| Settled (k : nat) (r : settled reply_body).
                               (* the k-th outstanding fetch settles *)

(** One event.  A disabled input field takes no edits. *)
Definition step (st : state) (e : event) : state :=
  match e with
  | Typed text => if chatInput_disabled st then st else set_value text st
  | SubmitEvent => submit st
  | Settled k r =>
      match nth_error (in_flight st) k with
      | Some element => on_settled element r (resume k st)
      | None => st
      end
  end.

Definition run (st : state) (events : list event) : state :=
  fold_left step events st.

Definition reachable (st : state) : Prop :=
  exists events, st = run initial events.

End ChatAgent.

(** ** frontend/script.js *)

Module Script.
Import JS Net.

Definition API_URL : string :=
  "https://my-unique-business-api.azurewebsites.net/chat".

(** The [sender] values [addMessage] is called with; each selects a class. *)
Inductive sender_class : Type := user | ai | loading.

(** A [div.message]; [id] tells the elements apart, so that
    [loadingMessage.remove()] removes that very element. *)
Record message_element : Type :=
  { id : nat; sender : sender_class; textContent : string }.

Record reply_body : Type := { reply : field string }.

Record request : Type := { url : string; message : string }.

Record state : Type :=
  { messageInput_value : string;
    chatWindow : list message_element;
    created : nat;                 (* elements created so far *)
    in_flight : list nat;          (* the [loadingMessage] of each suspended listener *)
    fetched : list request;
    console : list exn }.

Definition initial : state :=
  {| messageInput_value := EmptyString;
     chatWindow := [];
     created := 0;
     in_flight := [];
     fetched := [];
     console := [] |}.

(** [addMessage(sender, text)]: appends a new element, whose text was
    assigned through [textContent], and returns it. *)
Definition addMessage (who : sender_class) (text : string) (st : state)
  : nat * state :=
  (created st,
   {| messageInput_value := messageInput_value st;
      chatWindow :=
        chatWindow st ++ [{| id := created st; sender := who; textContent := text |}];
      created := S (created st);
      in_flight := in_flight st;
      fetched := fetched st;
      console := console st |}).

(** [element.remove()]; nothing happens when it is no longer attached. *)
Definition remove (element : nat) (st : state) : state :=
  {| messageInput_value := messageInput_value st;
     chatWindow := filter (fun m => negb (Nat.eqb (id m) element)) (chatWindow st);
     created := created st;
     in_flight := in_flight st;
     fetched := fetched st;
     console := console st |}.

Definition set_value (v : string) (st : state) : state :=
  {| messageInput_value := v;
     chatWindow := chatWindow st;
     created := created st;
     in_flight := in_flight st;
     fetched := fetched st;
     console := console st |}.

Definition fetch (userMessage : string) (loadingMessage : nat) (st : state) : state :=
  {| messageInput_value := messageInput_value st;
     chatWindow := chatWindow st;
     created := created st;
     in_flight := in_flight st ++ [loadingMessage];
     fetched := fetched st ++ [{| url := API_URL; message := userMessage |}];
     console := console st |}.

Definition console_error (e : exn) (st : state) : state :=
  {| messageInput_value := messageInput_value st;
     chatWindow := chatWindow st;
     created := created st;
     in_flight := in_flight st;
     fetched := fetched st;
     console := console st ++ [e] |}.

Definition resume (k : nat) (st : state) : state :=
  {| messageInput_value := messageInput_value st;
     chatWindow := chatWindow st;
     created := created st;
     in_flight := ChatAgent.remove_nth k (in_flight st);
     fetched := fetched st;
     console := console st |}.

(** The submit listener up to its [await fetch(...)]. *)
Definition submit (st : state) : state :=
  let userMessage := trim (messageInput_value st) in
  if string_falsy userMessage then st
  else
    let (_, st) := addMessage user userMessage st in
    let st := set_value EmptyString st in
    let (loadingMessage, st) := addMessage loading "..." st in
    fetch userMessage loadingMessage st.

(** The [try] block once the fetch has settled, up to the value of
    [data.reply]. *)
Definition try_block (r : settled reply_body) : completion (field string) :=
  match r with
  | Rejected => inl FetchFailed
  | Response status body =>
      if negb (ok status) then
        inl (Error ("HTTP error! status: " ++ Z_toString status))
      else
        match body with
        | NotJson => inl SyntaxError
        | JsonNull => inl TypeError
        | JsonOther => inr Undefined
        | JsonObject data => inr (reply data)
        end
  end.

Definition apology : string := "Sorry, I ran into an error. Please try again.".

(** The continuation of the listener holding [loadingMessage].  On every
    path the loading element is removed before the final message is added
    (a second [remove] of a detached element does nothing). *)
Definition on_settled (loadingMessage : nat) (r : settled reply_body)
  (st : state) : state :=
  match try_block r with
  | inr fullReply =>
      snd (addMessage ai (textContent_of fullReply) (remove loadingMessage st))
  | inl error =>
      let st := console_error error st in
      snd (addMessage ai apology (remove loadingMessage st))
  end.

Inductive event : Type :=
| Typed (text : string)
| SubmitEvent
| Settled (k : nat) (r : settled reply_body).

(** Nothing in this script disables the input field. *)
Definition step (st : state) (e : event) : state :=
  match e with
  | Typed text => set_value text st
  | SubmitEvent => submit st
  | Settled k r =>
      match nth_error (in_flight st) k with
      | Some element => on_settled element r (resume k st)
      | None => st
      end
  end.

Definition run (st : state) (events : list event) : state :=
  fold_left step events st.

End Script.

(** ** The order-status script *)

Module OrderStatus.
Import JS Net.

Definition API_BASE_URL : string :=
  "https://my-unique-business-api.azurewebsites.net/api/order-status/".

(** The parsed response body, at the properties the listener reads. *)
Record payload : Type :=
  { detail : field string;
    customerName : field string;
    orderDate : field string;
    readyDate : field string;
    calledDate : field string;
    pickupDate : field string;
    mountPrice : field number;
    boardPrice : field number;
    depositCash : field number;
    depositCheck : field number;
    paymentCash : field number;
    paymentCheck : field number;
    balance : field number;
    lastUpdatedAt : field string }.

(** What the listener takes from the host: the locale's rendering of
    [new Date(s)], and [Number::toString] for the numbers [toFixed] prints
    in exponent notation. *)
Record Host : Type :=
  { toLocaleString : string -> string;
    toLocaleDateString : string -> string;
    Number_toString : number -> string }.

Inductive console_entry : Type :=
| logged (data : payload)          (* console.log('API Response Data:', data) *)
| logged_null
| logged_other
| errored (e : exn).

Record state : Type :=
  { nameInput_value : UTF16.wide;
    resultsContainer_display : string;
    resultsContainer_innerHTML : string;
    in_flight : list string;       (* the URL each suspended listener awaits *)
    fetched : list string;         (* every URL passed to [fetch], oldest first *)
    console : list console_entry }.

(** The values of the template's substitutions, in source order. *)
Record RenderedSummary : Type :=
  { r_customerName : string;
    r_orderDate : string;
    r_readyDate : string;
    r_calledDate : string;
    r_pickupDate : string;
    r_mountPrice : string;
    r_boardPrice : string;
    r_totalCost : string;
    r_totalDeposit : string;
    r_subsequentPayments : string;
    r_balance : string;
    r_lastUpdated : string }.

(** The template literal assigned to [resultsContainer.innerHTML]. *)
Definition receipt (s : RenderedSummary) : string :=
  String.concat EmptyString
    [ nl;
      "                        <div class="; dq; "status-receipt"; dq; ">"; nl;
      "                            <div class="; dq; "receipt-header"; dq; ">"; nl;
      "                                <h3>Order Status for "; r_customerName s; "</h3>                                "; nl;
      "                                <div class="; dq; "receipt-line"; dq; "><span><strong>Order Date: </strong></span><span>"; r_orderDate s; "</span></div>"; nl;
      "                                <div class="; dq; "receipt-line"; dq; "><span><strong>Ready for Pickup: </strong></span><span>"; r_readyDate s; "</span></div>"; nl;
      "                                <div class="; dq; "receipt-line"; dq; "><span><strong>Customer Called: </strong></span><span>"; r_calledDate s; "</span></div>"; nl;
      "                                <div class="; dq; "receipt-line"; dq; "><span><strong>Final Pickup: </strong></span><span>"; r_pickupDate s; "</span></div>"; nl;
      "                            </div>"; nl;
      nl;
      nl;
      "                            <div class="; dq; "receipt-section"; dq; ">"; nl;
      "                                <h4> </h4>"; nl;
      "                                <h4>---------Financial Summary---------</h4>"; nl;
      "                                <div class="; dq; "receipt-line"; dq; "><span>Mount Price:</span><span> $"; r_mountPrice s; "</span></div>"; nl;
      "                                <div class="; dq; "receipt-line"; dq; "><span>Board Price:</span><span> $"; r_boardPrice s; "</span></div>"; nl;
      "                                <div class="; dq; "receipt-total"; dq; "><strong>Total Cost:</strong><strong> $"; r_totalCost s; "</strong></div>"; nl;
      "                                <br>"; nl;
      "                                <div class="; dq; "receipt-line"; dq; "><span>Initial Deposit:</span><span> - $"; r_totalDeposit s; "</span></div>"; nl;
      "                                <div class="; dq; "receipt-line"; dq; "><span>Additional Payments:</span><span> - $"; r_subsequentPayments s; "</span></div>"; nl;
      "                            </div>"; nl;
      "                            "; nl;
      "                            <div class="; dq; "receipt-balance"; dq; ">"; nl;
      "                                <h4> </h4>"; nl;
      "                                <strong>Balance Due:</strong>"; nl;
      "                                <strong>$"; r_balance s; "</strong>"; nl;
      "                            </div>"; nl;
      nl;
      "                            <div class="; dq; "receipt-footer"; dq; ">"; nl;
      "                                <h4>-----------------------------------------</h4>"; nl;
      "                                <h4>Thank you for your business!</h4>"; nl;
      "                                <h4>-----------------------------------------</h4>"; nl;
      "                                <p>Last Updated: "; r_lastUpdated s; "</p>"; nl;
      "                            </div>"; nl;
      "                        </div>"; nl;
      "                    " ].

Definition searching : string := "<p>Searching...</p>".

Definition could_not_connect : string :=
  "<p style=" ++ dq ++ "color: red;" ++ dq
  ++ ">Could not connect to the server. Please try again later.</p>".

(** [`<p style="color: red;">${data.detail}</p>`] *)
Definition detail_markup (data : payload) : string :=
  "<p style=" ++ dq ++ "color: red;" ++ dq ++ ">" ++ interpolate (detail data) ++ "</p>".

(** What the property reads give on a body without these properties. *)
Definition no_properties : payload :=
  {| detail := Undefined;
     customerName := Undefined;
     orderDate := Undefined;
     readyDate := Undefined;
     calledDate := Undefined;
     pickupDate := Undefined;
     mountPrice := Undefined;
     boardPrice := Undefined;
     depositCash := Undefined;
     depositCheck := Undefined;
     paymentCash := Undefined;
     paymentCheck := Undefined;
     balance := Undefined;
     lastUpdatedAt := Undefined |}.

Section Rendering.

Variable host : Host.

Definition formatDateTime (dateTimeString : field string) : string :=
  if field_falsy dateTimeString then "N/A"
  else toLocaleString host (interpolate dateTimeString).

Definition formatDate (dateString : field string) : string :=
  if field_falsy dateString then "Pending"
  else toLocaleDateString host (before_T (interpolate dateString)).

Definition toFixed (x : number) : string := toFixed2 (Number_toString host) x.

Definition totalCost (data : payload) : number :=
  add (or_zero (mountPrice data)) (or_zero (boardPrice data)).

Definition totalDeposit (data : payload) : number :=
  add (or_zero (depositCash data)) (or_zero (depositCheck data)).

Definition subsequentPayments (data : payload) : number :=
  add (or_zero (paymentCash data)) (or_zero (paymentCheck data)).

(** The substitutions of the template.  [data.balance.toFixed(2)] throws
    when [data.balance] is [undefined] or [null]; no other substitution
    can throw. *)
Definition substitutions (data : payload) : completion RenderedSummary :=
  match balance data with
  | Val b =>
      inr {| r_customerName := interpolate (customerName data);
             r_orderDate := formatDate (orderDate data);
             r_readyDate := formatDate (readyDate data);
             r_calledDate := formatDate (calledDate data);
             r_pickupDate := formatDate (pickupDate data);
             r_mountPrice := toFixed (or_zero (mountPrice data));
             r_boardPrice := toFixed (or_zero (boardPrice data));
             r_totalCost := toFixed (totalCost data);
             r_totalDeposit := toFixed (totalDeposit data);
             r_subsequentPayments := toFixed (subsequentPayments data);
             r_balance := toFixed b;
             r_lastUpdated := formatDateTime (lastUpdatedAt data) |}
  | _ => inl TypeError
  end.

(** The [try] block once the fetch has settled: it throws, or completes
    with the markup assigned to [resultsContainer.innerHTML]. *)
Definition try_block (r : settled payload) : completion string :=
  match r with
  | Rejected => inl FetchFailed
  | Response status body =>
      match body with
      | NotJson => inl SyntaxError
      | JsonNull => inl TypeError
      | JsonOther =>
          if negb (ok status) then inr (detail_markup no_properties)
          else
            match substitutions no_properties with
            | inr s => inr (receipt s)
            | inl e => inl e
            end
      | JsonObject data =>
          if negb (ok status) then inr (detail_markup data)
          else
            match substitutions data with
            | inr s => inr (receipt s)
            | inl e => inl e
            end
      end
  end.

End Rendering.

Definition initial : state :=
  {| nameInput_value := [];
     resultsContainer_display := EmptyString;
     resultsContainer_innerHTML := EmptyString;
     in_flight := [];
     fetched := [];
     console := [] |}.

Definition set_value (v : UTF16.wide) (st : state) : state :=
  {| nameInput_value := v;
     resultsContainer_display := resultsContainer_display st;
     resultsContainer_innerHTML := resultsContainer_innerHTML st;
     in_flight := in_flight st;
     fetched := fetched st;
     console := console st |}.

(** [resultsContainer.style.display = 'block'] *)
Definition show (st : state) : state :=
  {| nameInput_value := nameInput_value st;
     resultsContainer_display := "block";
     resultsContainer_innerHTML := resultsContainer_innerHTML st;
     in_flight := in_flight st;
     fetched := fetched st;
     console := console st |}.

(** [resultsContainer.innerHTML = markup] *)
Definition set_innerHTML (markup : string) (st : state) : state :=
  {| nameInput_value := nameInput_value st;
     resultsContainer_display := resultsContainer_display st;
     resultsContainer_innerHTML := markup;
     in_flight := in_flight st;
     fetched := fetched st;
     console := console st |}.

Definition fetch (fullApiUrl : string) (st : state) : state :=
  {| nameInput_value := nameInput_value st;
     resultsContainer_display := resultsContainer_display st;
     resultsContainer_innerHTML := resultsContainer_innerHTML st;
     in_flight := in_flight st ++ [fullApiUrl];
     fetched := fetched st ++ [fullApiUrl];
     console := console st |}.

Definition console_add (c : console_entry) (st : state) : state :=
  {| nameInput_value := nameInput_value st;
     resultsContainer_display := resultsContainer_display st;
     resultsContainer_innerHTML := resultsContainer_innerHTML st;
     in_flight := in_flight st;
     fetched := fetched st;
     console := console st ++ [c] |}.

Definition resume (k : nat) (st : state) : state :=
  {| nameInput_value := nameInput_value st;
     resultsContainer_display := resultsContainer_display st;
     resultsContainer_innerHTML := resultsContainer_innerHTML st;
     in_flight := ChatAgent.remove_nth k (in_flight st);
     fetched := fetched st;
     console := console st |}.

(** The submit listener up to its [await fetch(fullApiUrl)].  The call of
    [encodeURIComponent] stands before the [try]: when it throws, the
    listener ends there, with the page as it was. *)
Definition submit (st : state) : state :=
  let customerName := UTF16.trim (nameInput_value st) in
  if UTF16.falsy customerName then st
  else
    match UTF16.encodeURIComponent customerName with
    | None => st
    | Some encodedCustomerName =>
        let fullApiUrl := API_BASE_URL ++ encodedCustomerName in
        let st := show st in
        let st := set_innerHTML searching st in
        fetch fullApiUrl st
    end.

(** [console.log('API Response Data:', data)], reached when the body
    parsed. *)
Definition log_data (r : settled payload) (st : state) : state :=
  match r with
  | Response _ (JsonObject data) => console_add (logged data) st
  | Response _ JsonNull => console_add logged_null st
  | Response _ JsonOther => console_add logged_other st
  | _ => st
  end.

(** The continuation of a suspended listener. *)
Definition on_settled (host : Host) (r : settled payload) (st : state) : state :=
  let st := log_data r st in
  match try_block host r with
  | inr markup => set_innerHTML markup st
  | inl error =>
      let st := console_add (errored error) st in
      set_innerHTML could_not_connect st
  end.

Inductive event : Type :=
| Typed (text : UTF16.wide)
| SubmitEvent
| Settled (k : nat) (r : settled payload).

(** Nothing in this script disables the input field. *)
Definition step (host : Host) (st : state) (e : event) : state :=
  match e with
  | Typed text => set_value text st
  | SubmitEvent => submit st
  | Settled k r =>
      match nth_error (in_flight st) k with
      | Some _ => on_settled host r (resume k st)
      | None => st
      end
  end.

Definition run (host : Host) (st : state) (events : list event) : state :=
  fold_left (step host) events st.

End OrderStatus.

(** ** Notions the properties are stated with *)

(** Empty or made of whitespace only. *)
Fixpoint blank (s : string) : bool :=
  match s with
  | EmptyString => true
  | String c r => JS.is_whitespace c && blank r
  end.

(** The same for a wide string. *)
Fixpoint wide_blank (s : UTF16.wide) : bool :=
  match s with
  | [] => true
  | u :: r => UTF16.is_whitespace u && wide_blank r
  end.

(** U+D800, a high surrogate; alone in a string it is unpaired. *)
Definition lone_surrogate : UTF16.code_unit := (ascii_of_N 216, Ascii.zero).

Fixpoint starts_with (p s : string) : bool :=
  match p, s with
  | EmptyString, _ => true
  | String a p', String b s' => Ascii.eqb a b && starts_with p' s'
  | String _ _, EmptyString => false
  end.

(** [text] occurs somewhere in [s]. *)
Fixpoint includes (text s : string) : bool :=
  starts_with text s
  || match s with
     | EmptyString => false
     | String _ r => includes text r
     end.

(** The spec's [orDefault]: the value of an optional field, or the default
    when the field is absent. *)
Definition orDefault (default : JS.number) (f : JS.field JS.number) : JS.number :=
  match f with
  | JS.Val x => x
  | _ => default
  end.

(** A field that does not hold [NaN] (no JSON literal parses to [NaN]). *)
Definition not_nan (f : JS.field JS.number) : bool :=
  match f with
  | JS.Val x => negb (JS.is_nan x)
  | _ => true
  end.

(** A finite number of magnitude below [10^21]: the numbers [toFixed]
    prints in positional notation. *)
Definition positional (x : JS.number) : bool :=
  match x with
  | S754_zero _ => true
  | S754_finite _ m e => negb (JS.ge_1e21 m e)
  | _ => false
  end.

Definition is_digit (c : ascii) : bool :=
  ((48 <=? N_of_ascii c) && (N_of_ascii c <=? 57))%N.

Fixpoint all_digits (s : string) : bool :=
  match s with
  | EmptyString => true
  | String c r => is_digit c && all_digits r
  end.

(** A present date or timestamp is not the empty string (an ISO-8601 value
    never is). *)
Definition nonempty_if_present (f : JS.field string) : bool :=
  match f with
  | JS.Val EmptyString => false
  | _ => true
  end.

(** The guard of the chat-agent controller: a request is outstanding only
    while the input field is disabled and empty, and then there is exactly
    one. *)
Definition guarded (st : ChatAgent.state) : Prop :=
  ChatAgent.in_flight st = [] \/
  (exists element, ChatAgent.in_flight st = [element]) /\
  ChatAgent.chatInput_disabled st = true /\
  ChatAgent.chatInput_value st = EmptyString.

Definition is_settled (e : ChatAgent.event) : bool :=
  match e with ChatAgent.Settled _ _ => true | _ => false end.

(** The text a paragraph holds, whichever way it was written. *)
Definition shown (p : ChatAgent.paragraph) : string :=
  match p with
  | ChatAgent.innerText text => text
  | ChatAgent.innerHTML markup => markup
  end.

(** The paragraph an element reference points to. *)
Definition paragraph_at (element : nat) (st : ChatAgent.state)
  : option ChatAgent.paragraph :=
  option_map ChatAgent.body (nth_error (ChatAgent.chatWindow st) element).

(** What the order-status listener leaves in [resultsContainer] once its
    fetch has settled, as a function of the host and the settlement. *)
Definition rendered (host : OrderStatus.Host) (r : Net.settled OrderStatus.payload)
  : string :=
  match OrderStatus.try_block host r with
  | inr markup => markup
  | inl _ => OrderStatus.could_not_connect
  end.

(** A number printed with a sign, an integer part and exactly two decimal
    digits. *)
Definition two_decimals (s : string) : Prop :=
  exists sign a b,
    s = sign ++ a ++ "." ++ b /\
    (sign = EmptyString \/ sign = "-") /\
    a <> EmptyString /\ all_digits a = true /\
    all_digits b = true /\ String.length b = 2%nat.

(** A host for the examples: dates print with a fixed prefix, and the one
    number the examples print in exponent notation is 10^21. *)
Definition sample_host : OrderStatus.Host :=
  {| OrderStatus.toLocaleString := fun s => "local " ++ s;
     OrderStatus.toLocaleDateString := fun s => "local " ++ s;
     OrderStatus.Number_toString := fun _ => "1e+21" |}.

(** An order whose optional fields are all missing, with balance 12.5. *)
Definition bare_order : OrderStatus.payload :=
  {| OrderStatus.detail := JS.Undefined;
     OrderStatus.customerName := JS.Val "Ada";
     OrderStatus.orderDate := JS.Null;
     OrderStatus.readyDate := JS.Null;
     OrderStatus.calledDate := JS.Null;
     OrderStatus.pickupDate := JS.Null;
     OrderStatus.mountPrice := JS.Null;
     OrderStatus.boardPrice := JS.Null;
     OrderStatus.depositCash := JS.Null;
     OrderStatus.depositCheck := JS.Null;
     OrderStatus.paymentCash := JS.Null;
     OrderStatus.paymentCheck := JS.Null;
     OrderStatus.balance := JS.Val (JS.dyadic 25 (-1));
     OrderStatus.lastUpdatedAt := JS.Null |}.

(** An order in progress: mount 350, board 49.5, deposits 100 + 50,
    one payment of 25.25, balance 224.25. *)
Definition open_order : OrderStatus.payload :=
  {| OrderStatus.detail := JS.Undefined;
     OrderStatus.customerName := JS.Val "Ada";
     OrderStatus.orderDate := JS.Val "2024-03-01T00:00:00";
     OrderStatus.readyDate := JS.Val "2024-06-15T00:00:00";
     OrderStatus.calledDate := JS.Null;
     OrderStatus.pickupDate := JS.Undefined;
     OrderStatus.mountPrice := JS.Val (JS.dyadic 350 0);
     OrderStatus.boardPrice := JS.Val (JS.dyadic 99 (-1));
     OrderStatus.depositCash := JS.Val (JS.dyadic 100 0);
     OrderStatus.depositCheck := JS.Val (JS.dyadic 50 0);
     OrderStatus.paymentCash := JS.Null;
     OrderStatus.paymentCheck := JS.Val (JS.dyadic 101 (-2));
     OrderStatus.balance := JS.Val (JS.dyadic 897 (-2));
     OrderStatus.lastUpdatedAt := JS.Val "2024-06-15T09:30:00" |}.

(** An order as corrupted upstream: no balance. *)
Definition no_balance_order : OrderStatus.payload :=
  {| OrderStatus.detail := JS.Undefined;
     OrderStatus.customerName := JS.Val "Ada";
     OrderStatus.orderDate := JS.Val "2024-03-01T00:00:00";
     OrderStatus.readyDate := JS.Null;
     OrderStatus.calledDate := JS.Null;
     OrderStatus.pickupDate := JS.Null;
     OrderStatus.mountPrice := JS.Val (JS.dyadic 350 0);
     OrderStatus.boardPrice := JS.Null;
     OrderStatus.depositCash := JS.Null;
     OrderStatus.depositCheck := JS.Null;
     OrderStatus.paymentCash := JS.Null;
     OrderStatus.paymentCheck := JS.Null;
     OrderStatus.balance := JS.Undefined;
     OrderStatus.lastUpdatedAt := JS.Null |}.

(** The body of a 404 from the lookup endpoint. *)
Definition not_found : OrderStatus.payload :=
  {| OrderStatus.detail := JS.Val "Not found";
     OrderStatus.customerName := JS.Undefined;
     OrderStatus.orderDate := JS.Undefined;
     OrderStatus.readyDate := JS.Undefined;
     OrderStatus.calledDate := JS.Undefined;
     OrderStatus.pickupDate := JS.Undefined;
     OrderStatus.mountPrice := JS.Undefined;
     OrderStatus.boardPrice := JS.Undefined;
     OrderStatus.depositCash := JS.Undefined;
     OrderStatus.depositCheck := JS.Undefined;
     OrderStatus.paymentCash := JS.Undefined;
     OrderStatus.paymentCheck := JS.Undefined;
     OrderStatus.balance := JS.Undefined;
     OrderStatus.lastUpdatedAt := JS.Undefined |}.

(** The lookup page while a query for "Ada" is outstanding. *)
Definition searching_for_Ada : OrderStatus.state :=
  OrderStatus.submit (OrderStatus.set_value (UTF16.of_string "Ada") OrderStatus.initial).

(** The chat page while the message "hi" is outstanding. *)
Definition waiting_for_reply : ChatAgent.state :=
  ChatAgent.submit (ChatAgent.set_value "hi" ChatAgent.initial).

(** *** Notions for the receipt *)

(** [page] holds [value] between [before] and [after]. *)
Definition has_line (before value after page : string) : Prop :=
  exists pre post, page = pre ++ before ++ value ++ after ++ post.

(** The lines of the receipt, by their labels. *)
Definition date_line (name value page : string) : Prop :=
  has_line ("<span><strong>" ++ name ++ " </strong></span><span>") value
    "</span></div>" page.

Definition price_line (name value page : string) : Prop :=
  has_line ("<span>" ++ name ++ "</span><span> $") value "</span></div>" page.

Definition paid_line (name value page : string) : Prop :=
  has_line ("<span>" ++ name ++ "</span><span> - $") value "</span></div>" page.

Definition total_line (value page : string) : Prop :=
  has_line "<strong>Total Cost:</strong><strong> $" value "</strong></div>" page.

Definition balance_line (value page : string) : Prop :=
  has_line
    ("<strong>Balance Due:</strong>" ++ JS.nl
     ++ "                                <strong>$")
    value "</strong>" page.

Definition updated_line (value page : string) : Prop :=
  has_line "<p>Last Updated: " value "</p>" page.

(** A payload with another balance, and with other prices. *)
Definition with_balance (b : JS.field JS.number) (data : OrderStatus.payload)
  : OrderStatus.payload :=
  {| OrderStatus.detail := OrderStatus.detail data;
     OrderStatus.customerName := OrderStatus.customerName data;
     OrderStatus.orderDate := OrderStatus.orderDate data;
     OrderStatus.readyDate := OrderStatus.readyDate data;
     OrderStatus.calledDate := OrderStatus.calledDate data;
     OrderStatus.pickupDate := OrderStatus.pickupDate data;
     OrderStatus.mountPrice := OrderStatus.mountPrice data;
     OrderStatus.boardPrice := OrderStatus.boardPrice data;
     OrderStatus.depositCash := OrderStatus.depositCash data;
     OrderStatus.depositCheck := OrderStatus.depositCheck data;
     OrderStatus.paymentCash := OrderStatus.paymentCash data;
     OrderStatus.paymentCheck := OrderStatus.paymentCheck data;
     OrderStatus.balance := b;
     OrderStatus.lastUpdatedAt := OrderStatus.lastUpdatedAt data |}.

Definition with_prices (mount board : JS.field JS.number) (data : OrderStatus.payload)
  : OrderStatus.payload :=
  {| OrderStatus.detail := OrderStatus.detail data;
     OrderStatus.customerName := OrderStatus.customerName data;
     OrderStatus.orderDate := OrderStatus.orderDate data;
     OrderStatus.readyDate := OrderStatus.readyDate data;
     OrderStatus.calledDate := OrderStatus.calledDate data;
     OrderStatus.pickupDate := OrderStatus.pickupDate data;
     OrderStatus.mountPrice := mount;
     OrderStatus.boardPrice := board;
     OrderStatus.depositCash := OrderStatus.depositCash data;
     OrderStatus.depositCheck := OrderStatus.depositCheck data;
     OrderStatus.paymentCash := OrderStatus.paymentCash data;
     OrderStatus.paymentCheck := OrderStatus.paymentCheck data;
     OrderStatus.balance := OrderStatus.balance data;
     OrderStatus.lastUpdatedAt := OrderStatus.lastUpdatedAt data |}.

(** The number 10^21 (the JSON literal 1e21), the largest finite number
    (the JSON literal 1.7976931348623157e308), and what the JSON literal
    1e999 parses to. *)
Definition ten_to_21 : JS.number := JS.dyadic (5 ^ 21) 21.
Definition largest_finite : JS.number := JS.dyadic (2 ^ 53 - 1) 971.
Definition infinity : JS.number := S754_infinity false.

(** *** Notions for the chat-agent display log *)

(** The element a user message is displayed in. *)
Definition said (text : string) : ChatAgent.message_element :=
  {| ChatAgent.sender := ChatAgent.user; ChatAgent.body := ChatAgent.innerText text |}.

(** The element an answer (or the placeholder) is displayed in. *)
Definition answered (p : ChatAgent.paragraph) : ChatAgent.message_element :=
  {| ChatAgent.sender := ChatAgent.assistant; ChatAgent.body := p |}.

Definition placeholder : ChatAgent.paragraph := ChatAgent.innerText "...".

(** The log in which every request is followed by its answer, in the order
    the requests were made. *)
Fixpoint transcript (requests : list ChatAgent.request)
  (answers : list ChatAgent.paragraph) : list ChatAgent.message_element :=
  match requests, answers with
  | q :: qs, a :: az => said (ChatAgent.message q) :: answered a :: transcript qs az
  | _, _ => []
  end.

(** What the continuation writes into the placeholder. *)
Definition answer (r : Net.settled ChatAgent.reply_body) : ChatAgent.paragraph :=
  match ChatAgent.try_block r with
  | inr fullReply => ChatAgent.innerText (JS.text_of fullReply)
  | inl _ => ChatAgent.innerHTML ChatAgent.apology
  end.

(** The history entry of a request. *)
Definition asked (q : ChatAgent.request) : ChatAgent.ConversationMessage :=
  {| ChatAgent.msg_role := ChatAgent.user; ChatAgent.content := ChatAgent.message q |}.

(** A request as the listener makes it: to the proxy endpoint, with a
    message that is not empty and has no whitespace at either end. *)
Definition well_formed_request (q : ChatAgent.request) : Prop :=
  ChatAgent.url q = ChatAgent.AGENT_PROXY_ENDPOINT /\
  JS.trim (ChatAgent.message q) = ChatAgent.message q /\
  ChatAgent.message q <> EmptyString.

(** The form as [setFormDisabled(false)] leaves it, nothing outstanding. *)
Definition form_idle (st : ChatAgent.state) : Prop :=
  ChatAgent.in_flight st = [] /\
  ChatAgent.chatInput_disabled st = false /\
  ChatAgent.chatSubmitButton_disabled st = false /\
  ChatAgent.chatSubmitButton_innerText st = "Send".

(** The form as the listener leaves it at its [await]: one request
    outstanding, whose placeholder is the last element of the log. *)
Definition form_waiting (st : ChatAgent.state) (answers : list ChatAgent.paragraph)
  : Prop :=
  ChatAgent.in_flight st = [(List.length (ChatAgent.chatWindow st) - 1)%nat] /\
  (exists az, answers = (az ++ [placeholder])%list) /\
  ChatAgent.chatInput_disabled st = true /\
  ChatAgent.chatSubmitButton_disabled st = true /\
  ChatAgent.chatSubmitButton_innerText st = "Thinking..." /\
  ChatAgent.chatInput_value st = EmptyString.

(** History, display log, call log and form agree. *)
Definition coherent (st : ChatAgent.state) : Prop :=
  exists answers,
    List.length answers = List.length (ChatAgent.fetched st) /\
    ChatAgent.chatWindow st = transcript (ChatAgent.fetched st) answers /\
    ChatAgent.conversationHistory st
    = ChatAgent.greeting :: map asked (ChatAgent.fetched st) /\
    Forall well_formed_request (ChatAgent.fetched st) /\
    (form_idle st \/ form_waiting st answers).

(** *** Notions for the script.js window *)

Definition script_reachable (st : Script.state) : Prop :=
  exists events, st = Script.run Script.initial events.

(** The element was added by [addMessage] with this sender. *)
Definition from_sender (c : Script.sender_class) (m : Script.message_element) : bool :=
  match c, Script.sender m with
  | Script.user, Script.user
  | Script.ai, Script.ai
  | Script.loading, Script.loading => true
  | _, _ => false
  end.

(** The text of the message the continuation adds. *)
Definition script_answer (r : Net.settled Script.reply_body) : string :=
  match Script.try_block r with
  | inr fullReply => JS.textContent_of fullReply
  | inl _ => Script.apology
  end.

(** Window, outstanding requests and call log agree. *)
Definition script_coherent (st : Script.state) : Prop :=
  map Script.id (filter (from_sender Script.loading) (Script.chatWindow st))
  = Script.in_flight st /\
  Forall (fun m => (Script.id m < Script.created st)%nat) (Script.chatWindow st) /\
  NoDup (map Script.id (Script.chatWindow st)) /\
  List.length (filter (from_sender Script.user) (Script.chatWindow st))
  = List.length (Script.fetched st) /\
  (List.length (filter (from_sender Script.ai) (Script.chatWindow st))
   + List.length (Script.in_flight st))%nat
  = List.length (Script.fetched st).

(** *** Notions for the order-status lookup *)

Definition lookup_reachable (host : OrderStatus.Host) (st : OrderStatus.state) : Prop :=
  exists events, st = OrderStatus.run host OrderStatus.initial events.

(** A character that may stand in one segment of a URL path as it is: an
    unreserved character, or the percent sign of an escape. *)
Definition url_safe (c : ascii) : bool :=
  JS.is_unreserved c || Ascii.eqb c "%".

Fixpoint all_url_safe (s : string) : bool :=
  match s with
  | EmptyString => true
  | String c r => url_safe c && all_url_safe r
  end.

(** A URL the lookup may fetch: the base URL followed by one non-empty
    path segment of safe characters. *)
Definition lookup_url (u : string) : Prop :=
  exists segment,
    u = OrderStatus.API_BASE_URL ++ segment /\
    segment <> EmptyString /\ all_url_safe segment = true.

(** Reading back an escaped octet (used to show that the encoding loses
    nothing). *)
Definition hex_value (c : ascii) : option N :=
  let n := N_of_ascii c in
  if ((48 <=? n) && (n <=? 57))%N then Some (n - 48)%N
  else if ((65 <=? n) && (n <=? 70))%N then Some (n - 55)%N
  else None.

Definition unescape_octet (s : string) : option (N * string) :=
  match s with
  | String p digits =>
      if Ascii.eqb p "%" then
        match digits with
        | String h (String l r) =>
            match hex_value h, hex_value l with
            | Some a, Some b => Some (16 * a + b, r)%N
            | _, _ => None
            end
        | _ => None
        end
      else None
  | EmptyString => None
  end.

(** Reading back what [encodeURIComponent] writes for one code point. *)
Definition decode_point (s : string) : option (N * string) :=
  match unescape_octet s with
  | Some (b1, r1) =>
      if (b1 <? 128)%N then Some (b1, r1)
      else
        match unescape_octet r1 with
        | None => None
        | Some (b2, r2) =>
            if (b1 <? 224)%N then Some ((b1 - 192) * 64 + (b2 - 128), r2)%N
            else
              match unescape_octet r2 with
              | None => None
              | Some (b3, r3) =>
                  if (b1 <? 240)%N then
                    Some ((b1 - 224) * 4096 + (b2 - 128) * 64 + (b3 - 128), r3)%N
                  else
                    match unescape_octet r3 with
                    | None => None
                    | Some (b4, r4) =>
                        Some ((b1 - 240) * 262144 + (b2 - 128) * 4096
                              + (b3 - 128) * 64 + (b4 - 128), r4)%N
                    end
              end
        end
  | None =>
      match s with
      | EmptyString => None
      | String c r => if Ascii.eqb c "%" then None else Some (N_of_ascii c, r)
      end
  end.

(** No ['T'] occurs in the string. *)
Fixpoint no_T (s : string) : bool :=
  match s with
  | EmptyString => true
  | String c r => negb (Ascii.eqb c "T") && no_T r
  end.

(** The results container before the first lookup, or shown since. *)
Definition container_state (st : OrderStatus.state) : Prop :=
  (OrderStatus.fetched st = [] /\ OrderStatus.in_flight st = [] /\
   OrderStatus.resultsContainer_display st = EmptyString /\
   OrderStatus.resultsContainer_innerHTML st = EmptyString) \/
  (OrderStatus.fetched st <> [] /\ OrderStatus.resultsContainer_display st = "block").

(** An order with a mount price and no board price. *)
Definition mount_only_order : OrderStatus.payload :=
  {| OrderStatus.detail := JS.Undefined;
     OrderStatus.customerName := JS.Val "Ada";
     OrderStatus.orderDate := JS.Val "2024-03-01T00:00:00";
     OrderStatus.readyDate := JS.Null;
     OrderStatus.calledDate := JS.Null;
     OrderStatus.pickupDate := JS.Null;
     OrderStatus.mountPrice := JS.Val (JS.dyadic 350 0);
     OrderStatus.boardPrice := JS.Null;
     OrderStatus.depositCash := JS.Val (JS.dyadic 100 0);
     OrderStatus.depositCheck := JS.Null;
     OrderStatus.paymentCash := JS.Null;
     OrderStatus.paymentCheck := JS.Null;
     OrderStatus.balance := JS.Val (JS.dyadic 250 0);
     OrderStatus.lastUpdatedAt := JS.Null |}.

(** * Properties *)

(** ** Strings *)

Section Strings.
Import JS.

Lemma trimStart_blank (s : string) :
  blank s = true -> trimStart s = EmptyString.
Proof.
  induction s as [|c r IH]; simpl; [reflexivity|].
  intros H. apply andb_true_iff in H as [Hc Hr].
  rewrite Hc. auto.
Qed.

Lemma trimStart_not_blank (s : string) :
  blank s = false ->
  exists c r, trimStart s = String c r /\ is_whitespace c = false.
Proof.
  induction s as [|c r IH]; simpl; [discriminate|].
  destruct (is_whitespace c) eqn:Hc; simpl.
  - exact IH.
  - intros _. exists c, r. split; [reflexivity | exact Hc].
Qed.

Lemma trimEnd_keeps_head (c : ascii) (r : string) :
  is_whitespace c = false -> trimEnd (String c r) <> EmptyString.
Proof.
  intros Hc. simpl. destruct (trimEnd r); [rewrite Hc|]; discriminate.
Qed.

Lemma trim_blank (s : string) : blank s = true -> trim s = EmptyString.
Proof.
  intros H. unfold trim. rewrite (trimStart_blank s H). reflexivity.
Qed.

Lemma trim_not_blank (s : string) :
  blank s = false -> string_falsy (trim s) = false.
Proof.
  intros H. destruct (trimStart_not_blank s H) as (c & r & E & Hc).
  unfold trim. rewrite E.
  pose proof (trimEnd_keeps_head c r Hc) as N.
  destruct (trimEnd (String c r)); [contradiction | reflexivity].
Qed.

Lemma string_falsy_trim (s : string) : string_falsy (trim s) = blank s.
Proof.
  destruct (blank s) eqn:H.
  - rewrite (trim_blank s H). reflexivity.
  - apply trim_not_blank, H.
Qed.

Lemma starts_with_app (p s : string) : starts_with p (p ++ s) = true.
Proof.
  induction p as [|a p IH]; simpl; [reflexivity|].
  rewrite Ascii.eqb_refl. exact IH.
Qed.

Lemma includes_app (text pre post : string) :
  includes text (pre ++ text ++ post) = true.
Proof.
  induction pre as [|a pre IH]; simpl.
  - destruct (text ++ post) eqn:E; simpl; rewrite <- E, starts_with_app; reflexivity.
  - rewrite IH. apply orb_true_r.
Qed.

Lemma append_assoc (a b c : string) : (a ++ b) ++ c = a ++ b ++ c.
Proof. induction a as [|x a IH]; simpl; [reflexivity | rewrite IH; reflexivity]. Qed.

Lemma append_nil_r (a : string) : a ++ EmptyString = a.
Proof. induction a as [|x a IH]; simpl; [reflexivity | rewrite IH; reflexivity]. Qed.

Lemma concat_cons (x : string) (l : list string) :
  String.concat EmptyString (x :: l) = x ++ String.concat EmptyString l.
Proof. destruct l; simpl; [rewrite append_nil_r|]; reflexivity. Qed.

Lemma concat_app (l1 l2 : list string) :
  String.concat EmptyString (l1 ++ l2)
  = String.concat EmptyString l1 ++ String.concat EmptyString l2.
Proof.
  induction l1 as [|x l1 IH]; [reflexivity|].
  change ((x :: l1) ++ l2)%list with (x :: (l1 ++ l2))%list.
  rewrite !concat_cons, IH, append_assoc. reflexivity.
Qed.

End Strings.

Section WideStrings.
Import UTF16.

Lemma wide_trimStart_blank (s : wide) : wide_blank s = true -> trimStart s = [].
Proof.
  induction s as [|u r IH]; simpl; [reflexivity|].
  intros H. apply andb_true_iff in H as [Hu Hr].
  rewrite Hu. auto.
Qed.

Lemma wide_trimStart_not_blank (s : wide) :
  wide_blank s = false ->
  exists u r, trimStart s = u :: r /\ is_whitespace u = false.
Proof.
  induction s as [|u r IH]; simpl; [discriminate|].
  destruct (is_whitespace u) eqn:Hu; simpl.
  - exact IH.
  - intros _. exists u, r. split; [reflexivity | exact Hu].
Qed.

Lemma wide_trimEnd_keeps_head (u : code_unit) (r : wide) :
  is_whitespace u = false -> trimEnd (u :: r) <> [].
Proof.
  intros Hu. simpl. destruct (trimEnd r); [rewrite Hu|]; discriminate.
Qed.

Lemma wide_falsy_trim (s : wide) : falsy (trim s) = wide_blank s.
Proof.
  unfold trim. destruct (wide_blank s) eqn:B.
  - rewrite (wide_trimStart_blank s B). reflexivity.
  - destruct (wide_trimStart_not_blank s B) as (u & r & E & Hu). rewrite E.
    pose proof (wide_trimEnd_keeps_head u r Hu) as N.
    destruct (trimEnd (u :: r)); [contradiction | reflexivity].
Qed.

Lemma wide_trim_not_empty (s : wide) : wide_blank s = false -> trim s <> [].
Proof.
  intros B E. pose proof (wide_falsy_trim s) as F. rewrite E, B in F. discriminate.
Qed.

End WideStrings.

(** ** chat-agent.js: the request lifecycle *)

Section ChatAgentLifecycle.
Import JS Net ChatAgent.

Lemma submit_blank (st : state) :
  blank (chatInput_value st) = true -> submit st = st.
Proof.
  intros H. unfold submit. rewrite string_falsy_trim, H. reflexivity.
Qed.

Lemma submit_not_blank (st : state) :
  blank (chatInput_value st) = false ->
  submit st =
  {| conversationHistory :=
       conversationHistory st
       ++ [{| msg_role := user; content := trim (chatInput_value st) |}];
     chatInput_value := EmptyString;
     chatInput_disabled := true;
     chatSubmitButton_disabled := true;
     chatSubmitButton_innerText := "Thinking...";
     chatWindow :=
       (chatWindow st
        ++ [{| sender := user; body := innerText (trim (chatInput_value st)) |}])
       ++ [{| sender := assistant; body := innerText "..." |}];
     in_flight :=
       in_flight st
       ++ [List.length
             (chatWindow st
              ++ [{| sender := user; body := innerText (trim (chatInput_value st)) |}])];
     fetched :=
       fetched st
       ++ [{| url := AGENT_PROXY_ENDPOINT; message := trim (chatInput_value st) |}];
     console := console st |}.
Proof.
  intros H. unfold submit. rewrite string_falsy_trim, H. reflexivity.
Qed.

Lemma on_settled_enables (element : nat) (r : settled reply_body) (st : state) :
  chatInput_disabled (on_settled element r st) = false /\
  chatSubmitButton_disabled (on_settled element r st) = false /\
  chatSubmitButton_innerText (on_settled element r st) = "Send".
Proof. unfold on_settled. destruct (try_block r); repeat split. Qed.

Lemma on_settled_history (element : nat) (r : settled reply_body) (st : state) :
  conversationHistory (on_settled element r st) = conversationHistory st.
Proof. unfold on_settled. destruct (try_block r); reflexivity. Qed.

Lemma on_settled_in_flight (element : nat) (r : settled reply_body) (st : state) :
  in_flight (on_settled element r st) = in_flight st.
Proof. unfold on_settled. destruct (try_block r); reflexivity. Qed.

Lemma on_settled_fetched (element : nat) (r : settled reply_body) (st : state) :
  fetched (on_settled element r st) = fetched st.
Proof. unfold on_settled. destruct (try_block r); reflexivity. Qed.

Lemma on_settled_value (element : nat) (r : settled reply_body) (st : state) :
  chatInput_value (on_settled element r st) = chatInput_value st.
Proof. unfold on_settled. destruct (try_block r); reflexivity. Qed.

Lemma guarded_initial : guarded initial.
Proof. left. reflexivity. Qed.

Lemma guarded_step (st : state) (e : event) : guarded st -> guarded (step st e).
Proof.
  intros G. destruct e as [text | | k r]; simpl.
  - destruct (chatInput_disabled st) eqn:D; [exact G|].
    destruct G as [G | (_ & G & _)]; [left; exact G | congruence].
  - destruct G as [G | (Hone & D & V)].
    + destruct (blank (chatInput_value st)) eqn:B.
      * rewrite (submit_blank st B). left; exact G.
      * rewrite (submit_not_blank st B). right. simpl. rewrite G.
        repeat split. eexists. reflexivity.
    + rewrite submit_blank; [right; auto | rewrite V; reflexivity].
  - destruct (nth_error (in_flight st) k) as [element|] eqn:N; [|exact G].
    left. rewrite on_settled_in_flight. simpl.
    destruct G as [G | ((x & G) & _)]; rewrite G in *.
    + destruct k; discriminate.
    + destruct k as [|[|k]]; simpl in *; try discriminate. reflexivity.
Qed.

Lemma guarded_run (events : list event) (st : state) :
  guarded st -> guarded (run st events).
Proof.
  revert st. induction events as [|e events IH]; intros st G; simpl; [exact G|].
  apply IH, guarded_step, G.
Qed.

Lemma reachable_guarded (st : state) : reachable st -> guarded st.
Proof. intros [events ->]. apply guarded_run, guarded_initial. Qed.

(** At most one request is outstanding in any reachable state. *)
Lemma chat_agent_at_most_one_in_flight (st : state) :
  reachable st -> (List.length (in_flight st) <= 1)%nat.
Proof.
  intros R. destruct (reachable_guarded st R) as [G | ((x & G) & _)];
    rewrite G; simpl; lia.
Qed.

(** While a request is outstanding, a submit event changes nothing. *)
Lemma chat_agent_submit_rejected_in_flight (st : state) :
  reachable st -> in_flight st <> [] -> submit st = st.
Proof.
  intros R N. destruct (reachable_guarded st R) as [G | (_ & _ & V)];
    [contradiction|].
  apply submit_blank. rewrite V. reflexivity.
Qed.

(** While a request is outstanding, no sequence of edits and submit events
    issues another call. *)
Lemma chat_agent_no_call_while_in_flight (events : list event) (st : state) :
  reachable st -> in_flight st <> [] ->
  forallb (fun e => negb (is_settled e)) events = true ->
  run st events = st.
Proof.
  intros R N. induction events as [|e events IH]; simpl; [reflexivity|].
  intros H. apply andb_true_iff in H as [He Hrest].
  assert (step st e = st) as ->; [|apply IH, Hrest].
  destruct (reachable_guarded st R) as [G | (_ & D & _)]; [contradiction|].
  destruct e as [text | | k r]; simpl in *.
  - rewrite D. reflexivity.
  - apply chat_agent_submit_rejected_in_flight; assumption.
  - discriminate.
Qed.

(** Repeated submission after one message was sent: the call count stays at
    one until the request settles. *)
Lemma chat_agent_call_count_stays_at_one (text : string) (events : list event) :
  blank text = false ->
  forallb (fun e => negb (is_settled e)) events = true ->
  List.length (fetched (run initial (Typed text :: SubmitEvent :: events))) = 1%nat.
Proof.
  intros B H.
  change (run initial (Typed text :: SubmitEvent :: events))
    with (run (run initial [Typed text; SubmitEvent]) events).
  assert (run initial [Typed text; SubmitEvent]
          = submit (set_value text initial)) as E by reflexivity.
  rewrite chat_agent_no_call_while_in_flight.
  - rewrite E, (submit_not_blank (set_value text initial) B). reflexivity.
  - eexists. reflexivity.
  - rewrite E, (submit_not_blank (set_value text initial) B). discriminate.
  - exact H.
Qed.

End ChatAgentLifecycle.

(** ** chat-agent.js: what a settled request leaves behind *)

Section ChatAgentOutcome.
Import JS Net ChatAgent.

Lemma nth_error_replace_nth {A} (l : list A) (i : nat) (x y : A) :
  nth_error l i = Some y -> nth_error (replace_nth i x l) i = Some x.
Proof.
  revert i. induction l as [|h t IH]; intros [|i]; simpl; try discriminate.
  - reflexivity.
  - apply IH.
Qed.

Lemma paragraph_at_set (element : nat) (p : paragraph) (st : state) (m : message_element) :
  nth_error (chatWindow st) element = Some m ->
  paragraph_at element (set_paragraph element p st) = Some p.
Proof.
  intros H. unfold paragraph_at, set_paragraph. simpl. rewrite H.
  rewrite (nth_error_replace_nth _ _ _ _ H). reflexivity.
Qed.

(** Every failure of the round trip shows the same fixed apology and logs
    the error. *)
Lemma on_settled_failure (element : nat) (r : settled reply_body) (e : exn)
  (st : state) (m : message_element) :
  try_block r = inl e ->
  nth_error (chatWindow st) element = Some m ->
  paragraph_at element (on_settled element r st) = Some (innerHTML apology) /\
  console (on_settled element r st) = (console st ++ [e])%list.
Proof.
  intros T H. unfold on_settled. rewrite T. split; [|reflexivity].
  change (paragraph_at element
            (set_paragraph element (innerHTML apology) (console_error e st))
          = Some (innerHTML apology)).
  apply (paragraph_at_set element _ (console_error e st) m). exact H.
Qed.

(** A successful round trip writes the reply into the placeholder. *)
Lemma on_settled_success (element : nat) (r : settled reply_body)
  (fullReply : field string) (st : state) (m : message_element) :
  try_block r = inr fullReply ->
  nth_error (chatWindow st) element = Some m ->
  paragraph_at element (on_settled element r st)
  = Some (innerText (text_of fullReply)) /\
  console (on_settled element r st) = console st.
Proof.
  intros T H. unfold on_settled. rewrite T. split; [|reflexivity].
  change (paragraph_at element
            (set_paragraph element (innerText (text_of fullReply)) st)
          = Some (innerText (text_of fullReply))).
  apply (paragraph_at_set element _ st m). exact H.
Qed.

Lemma ChatAgent_try_block_rejection (status : Z) (errorData : reply_body) :
  ok status = false ->
  try_block (Response status (JsonObject errorData)) = inl (api_error status errorData).
Proof. intros H. simpl. rewrite H. reflexivity. Qed.

Lemma run_typed_submit (st : state) (text : string) :
  chatInput_disabled st = false -> blank text = false ->
  run st [Typed text; SubmitEvent] =
  {| conversationHistory :=
       conversationHistory st ++ [{| msg_role := user; content := trim text |}];
     chatInput_value := EmptyString;
     chatInput_disabled := true;
     chatSubmitButton_disabled := true;
     chatSubmitButton_innerText := "Thinking...";
     chatWindow :=
       (chatWindow st ++ [{| sender := user; body := innerText (trim text) |}])
       ++ [{| sender := assistant; body := innerText "..." |}];
     in_flight :=
       in_flight st
       ++ [List.length
             (chatWindow st ++ [{| sender := user; body := innerText (trim text) |}])];
     fetched :=
       fetched st ++ [{| url := AGENT_PROXY_ENDPOINT; message := trim text |}];
     console := console st |}.
Proof.
  intros D B. simpl. rewrite D.
  rewrite submit_not_blank by exact B. reflexivity.
Qed.

(** C9: when the request of a submit fails, the user message pushed at
    submit time is still the last entry of the conversation history; the
    failure rolls nothing back. *)
Theorem failed_request_keeps_user_message
  (st : state) (text : string) (r : settled reply_body) (e : exn) :
  in_flight st = [] ->
  chatInput_disabled st = false ->
  blank text = false ->
  try_block r = inl e ->
  conversationHistory (run st [Typed text; SubmitEvent; Settled 0 r])
  = (conversationHistory st ++ [{| msg_role := user; content := trim text |}])%list.
Proof.
  intros F D B _.
  change (run st [Typed text; SubmitEvent; Settled 0 r])
    with (step (run st [Typed text; SubmitEvent]) (Settled 0 r)).
  rewrite (run_typed_submit st text D B).
  unfold step. cbn [in_flight]. rewrite F. cbn [app nth_error].
  rewrite on_settled_history. reflexivity.
Qed.

Lemma failed_request_keeps_user_message_witness :
  conversationHistory
    (run initial
       [Typed "hello"; SubmitEvent;
        Settled 0 (Response 500 (@NotJson reply_body))])
  = [greeting; {| msg_role := user; content := "hello" |}].
Proof.
  apply (failed_request_keeps_user_message initial "hello"
           (Response 500 NotJson) SyntaxError);
    reflexivity.
Defined.

Lemma history_step (st : state) (e : event) :
  (exists us, conversationHistory st = greeting :: us
              /\ Forall (fun m => msg_role m = user) us) ->
  exists us, conversationHistory (step st e) = greeting :: us
             /\ Forall (fun m => msg_role m = user) us.
Proof.
  intros (us & E & U). destruct e as [text | | k r]; simpl.
  - destruct (chatInput_disabled st); exists us; auto.
  - destruct (blank (chatInput_value st)) eqn:B.
    + rewrite (submit_blank st B). exists us; auto.
    + rewrite (submit_not_blank st B). simpl. rewrite E.
      exists (us ++ [{| msg_role := user; content := trim (chatInput_value st) |}])%list.
      split; [reflexivity|].
      apply Forall_app. split; [exact U|]. repeat constructor.
  - destruct (nth_error (in_flight st) k); [|exists us; auto].
    rewrite on_settled_history. exists us; auto.
Qed.

(** C10: the history starts as the single assistant greeting; the
    continuation of a request, successful or not, leaves the history as it
    found it (the reply goes to the display only); hence in every reachable
    state the history is the greeting followed by user messages only. *)
Theorem history_is_greeting_then_user_messages :
  (conversationHistory initial = [greeting] /\ msg_role greeting = assistant) /\
  (forall element r st,
      conversationHistory (on_settled element r st) = conversationHistory st) /\
  (forall element fullReply r st m,
      try_block r = inr fullReply ->
      nth_error (chatWindow st) element = Some m ->
      paragraph_at element (on_settled element r st)
      = Some (innerText (text_of fullReply))) /\
  (forall st, reachable st ->
      exists us, conversationHistory st = greeting :: us
                 /\ Forall (fun m => msg_role m = user) us).
Proof.
  split; [split; reflexivity|].
  split; [intros; apply on_settled_history|].
  split.
  - intros element fullReply r st m T H.
    apply (on_settled_success element r fullReply st m T H).
  - intros st [events ->]. unfold run.
    assert (forall s, (exists us, conversationHistory s = greeting :: us
                         /\ Forall (fun m => msg_role m = user) us) ->
                      exists us, conversationHistory (fold_left step events s) = greeting :: us
                         /\ Forall (fun m => msg_role m = user) us) as K.
    { induction events as [|e events IH]; intros s Hs; simpl; [exact Hs|].
      apply IH, history_step, Hs. }
    apply K. exists []. split; [reflexivity | constructor].
Qed.

Lemma history_is_greeting_then_user_messages_witness :
  exists us,
    conversationHistory
      (run initial
         [Typed "hello"; SubmitEvent;
          Settled 0 (Response 200 (JsonObject {| reply := Val "Hi!"; detail := Undefined |}));
          Typed "thanks"; SubmitEvent])
    = greeting :: us
    /\ Forall (fun m => msg_role m = user) us.
Proof.
  apply (proj2 (proj2 (proj2 history_is_greeting_then_user_messages))).
  eexists. reflexivity.
Defined.

End ChatAgentOutcome.

(** ** script.js: no guard on submission *)

Section ScriptLifecycle.
Import JS Net.

Lemma script_submit_blank (st : Script.state) :
  blank (Script.messageInput_value st) = true -> Script.submit st = st.
Proof.
  intros H. unfold Script.submit. rewrite string_falsy_trim, H. reflexivity.
Qed.

Lemma script_submit_not_blank (st : Script.state) :
  blank (Script.messageInput_value st) = false ->
  Script.fetched (Script.submit st)
  = (Script.fetched st
     ++ [{| Script.url := Script.API_URL;
            Script.message := trim (Script.messageInput_value st) |}])%list /\
  List.length (Script.in_flight (Script.submit st))
  = S (List.length (Script.in_flight st)).
Proof.
  intros H. unfold Script.submit. rewrite string_falsy_trim, H. simpl.
  split; [reflexivity|]. rewrite length_app. simpl. lia.
Qed.

(** C1, on script.js: the listener of this script neither disables the
    form nor checks for an outstanding request.  Typing "A", submitting,
    then typing "B" and submitting again before the first fetch has settled
    issues a second call: two requests are outstanding and two calls were
    made. *)
Theorem script_second_submit_issues_second_call :
  let st := Script.run Script.initial
              [Script.Typed "A"; Script.SubmitEvent;
               Script.Typed "B"; Script.SubmitEvent] in
  List.length (Script.in_flight st) = 2%nat /\
  Script.fetched st
  = [{| Script.url := Script.API_URL; Script.message := "A" |};
     {| Script.url := Script.API_URL; Script.message := "B" |}].
Proof. split; reflexivity. Qed.

End ScriptLifecycle.

(** ** chat-agent.js: failures *)

Section ChatAgentFailures.
Import JS Net ChatAgent.

(** C2, as stated, fails on the chat controller: a 404 response whose body
    is [{"detail": "Not found"}] leaves the fixed apology in the placeholder
    paragraph, and the text "Not found" occurs nowhere in it. *)
Lemma chat_agent_does_not_show_detail :
  exists p,
    paragraph_at 1
      (run initial
         [Typed "hi"; SubmitEvent;
          Settled 0 (Response 404
                       (JsonObject {| reply := Undefined; detail := Val "Not found" |}))])
    = Some p
    /\ ~ (exists pre post, shown p = pre ++ "Not found" ++ post).
Proof.
  exists (innerHTML apology). split; [reflexivity|].
  intros (pre & post & E).
  pose proof (includes_app "Not found" pre post) as I.
  rewrite <- E in I. vm_compute in I. discriminate.
Qed.

End ChatAgentFailures.

(** ** The order-status script: the request lifecycle *)

Section OrderStatusLifecycle.
Import JS Net OrderStatus.

Variable host : Host.

Lemma lookup_blank (st : state) :
  wide_blank (nameInput_value st) = true -> submit st = st.
Proof.
  intros H. unfold submit. rewrite wide_falsy_trim, H. reflexivity.
Qed.

Lemma lookup_throws (st : state) :
  UTF16.encodeURIComponent (UTF16.trim (nameInput_value st)) = None ->
  submit st = st.
Proof.
  intros E. unfold submit. rewrite E.
  destruct (UTF16.falsy (UTF16.trim (nameInput_value st))); reflexivity.
Qed.

Lemma lookup_not_blank (st : state) (segment : string) :
  wide_blank (nameInput_value st) = false ->
  UTF16.encodeURIComponent (UTF16.trim (nameInput_value st)) = Some segment ->
  submit st =
  {| nameInput_value := nameInput_value st;
     resultsContainer_display := "block";
     resultsContainer_innerHTML := searching;
     in_flight := in_flight st ++ [API_BASE_URL ++ segment];
     fetched := fetched st ++ [API_BASE_URL ++ segment];
     console := console st |}.
Proof.
  intros H E. unfold submit. rewrite wide_falsy_trim, H, E. reflexivity.
Qed.

Lemma on_settled_innerHTML (r : settled payload) (st : state) :
  resultsContainer_innerHTML (on_settled host r st) = rendered host r.
Proof. unfold on_settled, rendered. destruct (try_block host r); reflexivity. Qed.

Lemma on_settled_keeps_requests (r : settled payload) (st : state) :
  nameInput_value (on_settled host r st) = nameInput_value st /\
  in_flight (on_settled host r st) = in_flight st /\
  fetched (on_settled host r st) = fetched st.
Proof.
  unfold on_settled.
  destruct (try_block host r); destruct r as [|status [| | |data]]; repeat split.
Qed.

Lemma log_data_keeps (r : settled payload) (st : state) :
  nameInput_value (log_data r st) = nameInput_value st /\
  in_flight (log_data r st) = in_flight st /\
  fetched (log_data r st) = fetched st.
Proof. destruct r as [|status [| | |data]]; repeat split. Qed.

(** One lookup run to completion from a state with nothing outstanding. *)
Lemma lookup_round_trip (st : state) (text : UTF16.wide) (segment : string)
  (r : settled payload) :
  in_flight st = [] -> wide_blank text = false ->
  UTF16.encodeURIComponent (UTF16.trim text) = Some segment ->
  let st' := run host st [Typed text; SubmitEvent; Settled 0 r] in
  resultsContainer_innerHTML st' = rendered host r /\
  in_flight st' = [] /\
  fetched st' = (fetched st ++ [(API_BASE_URL ++ segment)%string])%list.
Proof.
  intros F B E. cbv zeta.
  change (run host st [Typed text; SubmitEvent; Settled 0 r])
    with (step host (submit (set_value text st)) (Settled 0 r)).
  rewrite (lookup_not_blank (set_value text st) segment B E).
  unfold step. cbn [in_flight set_value nameInput_value fetched]. rewrite F.
  cbn [app nth_error].
  rewrite on_settled_innerHTML.
  match goal with
  | |- context [on_settled host r ?s] =>
      destruct (on_settled_keeps_requests r s) as (_ & -> & ->)
  end.
  repeat split.
Qed.

End OrderStatusLifecycle.

(** ** Submission, failure and retry across the scripts *)

Section Submission.
Import JS Net.

(** C6, as stated, fails on the order-status lookup: an input that is not
    blank but holds an unpaired surrogate makes [encodeURIComponent] throw
    before the [try] block is entered, so the lookup issues no call at all
    and leaves the page as it was. *)
Lemma lone_surrogate_lookup_issues_no_call :
  let st := OrderStatus.set_value [lone_surrogate] OrderStatus.initial in
  wide_blank (OrderStatus.nameInput_value st) = false /\
  UTF16.trim (OrderStatus.nameInput_value st) <> [] /\
  OrderStatus.submit st = st /\
  OrderStatus.fetched (OrderStatus.submit st) = [].
Proof. repeat split. discriminate. Qed.

(** C6, amended: in the chat controller, in the order-status lookup and in
    script.js alike, a submit whose input is empty or whitespace-only
    leaves the whole page state as it was (no call, nothing displayed).  A
    submit whose input has a non-whitespace character issues exactly one
    call, for the trimmed input: always in the two chat scripts, and in the
    lookup whenever [encodeURIComponent] returns for the trimmed input. *)
Theorem blank_input_is_ignored_else_one_call :
  (forall st : ChatAgent.state,
      (blank (ChatAgent.chatInput_value st) = true -> ChatAgent.submit st = st) /\
      (blank (ChatAgent.chatInput_value st) = false ->
       ChatAgent.fetched (ChatAgent.submit st)
       = (ChatAgent.fetched st
          ++ [{| ChatAgent.url := ChatAgent.AGENT_PROXY_ENDPOINT;
                 ChatAgent.message := trim (ChatAgent.chatInput_value st) |}])%list)) /\
  (forall st : OrderStatus.state,
      (wide_blank (OrderStatus.nameInput_value st) = true -> OrderStatus.submit st = st) /\
      (forall segment,
          wide_blank (OrderStatus.nameInput_value st) = false ->
          UTF16.encodeURIComponent (UTF16.trim (OrderStatus.nameInput_value st))
          = Some segment ->
          OrderStatus.fetched (OrderStatus.submit st)
          = (OrderStatus.fetched st
             ++ [(OrderStatus.API_BASE_URL ++ segment)%string])%list)) /\
  (forall st : Script.state,
      (blank (Script.messageInput_value st) = true -> Script.submit st = st) /\
      (blank (Script.messageInput_value st) = false ->
       Script.fetched (Script.submit st)
       = (Script.fetched st
          ++ [{| Script.url := Script.API_URL;
                 Script.message := trim (Script.messageInput_value st) |}])%list)).
Proof.
  split; [|split]; intros st; split.
  - intros B. apply submit_blank, B.
  - intros B. rewrite (submit_not_blank st B). reflexivity.
  - intros B. apply lookup_blank, B.
  - intros segment B E. rewrite (lookup_not_blank st segment B E). reflexivity.
  - intros B. apply script_submit_blank, B.
  - intros B. apply (script_submit_not_blank st B).
Qed.

Lemma blank_input_is_ignored_else_one_call_witness :
  (ChatAgent.submit (ChatAgent.set_value "   " ChatAgent.initial)
   = ChatAgent.set_value "   " ChatAgent.initial /\
   ChatAgent.fetched (ChatAgent.submit (ChatAgent.set_value " hi " ChatAgent.initial))
   = [{| ChatAgent.url := ChatAgent.AGENT_PROXY_ENDPOINT; ChatAgent.message := "hi" |}]) /\
  (OrderStatus.submit (OrderStatus.set_value (UTF16.of_string "   ") OrderStatus.initial)
   = OrderStatus.set_value (UTF16.of_string "   ") OrderStatus.initial /\
   OrderStatus.fetched
     (OrderStatus.submit
        (OrderStatus.set_value (UTF16.of_string " John Doe ") OrderStatus.initial))
   = ["https://my-unique-business-api.azurewebsites.net/api/order-status/John%20Doe"]).
Proof.
  destruct blank_input_is_ignored_else_one_call as (C & L & _).
  split; split.
  - apply (proj1 (C (ChatAgent.set_value "   " ChatAgent.initial))). reflexivity.
  - apply (proj2 (C (ChatAgent.set_value " hi " ChatAgent.initial))). reflexivity.
  - apply (proj1 (L (OrderStatus.set_value (UTF16.of_string "   ") OrderStatus.initial))).
    reflexivity.
  - apply (proj2 (L (OrderStatus.set_value (UTF16.of_string " John Doe ")
                       OrderStatus.initial))
             "John%20Doe");
      reflexivity.
Defined.

(** C7: however an outstanding request settles (a rejected fetch, a non-2xx
    response, a body that is not JSON, a body without the required balance,
    or anything else), the component takes a new attempt at once.  In the
    chat controller the input field and the button are enabled again and
    the next typed, non-blank message is sent; in the order-status lookup
    the next non-blank query is sent (whenever [encodeURIComponent] returns
    for it). *)
Theorem every_outcome_leaves_component_ready :
  (forall (st : ChatAgent.state) k element r text,
      nth_error (ChatAgent.in_flight st) k = Some element ->
      blank text = false ->
      let st' := ChatAgent.step st (ChatAgent.Settled k r) in
      ChatAgent.chatInput_disabled st' = false /\
      ChatAgent.chatSubmitButton_disabled st' = false /\
      ChatAgent.fetched
        (ChatAgent.run st' [ChatAgent.Typed text; ChatAgent.SubmitEvent])
      = (ChatAgent.fetched st'
         ++ [{| ChatAgent.url := ChatAgent.AGENT_PROXY_ENDPOINT;
                ChatAgent.message := trim text |}])%list) /\
  (forall host (st : OrderStatus.state) k awaited r text segment,
      nth_error (OrderStatus.in_flight st) k = Some awaited ->
      wide_blank text = false ->
      UTF16.encodeURIComponent (UTF16.trim text) = Some segment ->
      let st' := OrderStatus.step host st (OrderStatus.Settled k r) in
      OrderStatus.fetched
        (OrderStatus.run host st' [OrderStatus.Typed text; OrderStatus.SubmitEvent])
      = (OrderStatus.fetched st'
         ++ [(OrderStatus.API_BASE_URL ++ segment)%string])%list).
Proof.
  split.
  - intros st k element r text N B. cbv zeta.
    assert (ChatAgent.step st (ChatAgent.Settled k r)
            = ChatAgent.on_settled element r (ChatAgent.resume k st)) as ->
      by (unfold ChatAgent.step; rewrite N; reflexivity).
    destruct (on_settled_enables element r (ChatAgent.resume k st)) as (D & D' & _).
    repeat split; try assumption.
    rewrite (run_typed_submit _ text D B). reflexivity.
  - intros host st k awaited r text segment N B E. cbv zeta.
    set (st' := OrderStatus.step host st (OrderStatus.Settled k r)).
    change (OrderStatus.run host st' [OrderStatus.Typed text; OrderStatus.SubmitEvent])
      with (OrderStatus.submit (OrderStatus.set_value text st')).
    rewrite (lookup_not_blank (OrderStatus.set_value text st') segment B E).
    reflexivity.
Qed.

Lemma every_outcome_leaves_component_ready_witness :
  (let st' :=
     ChatAgent.run ChatAgent.initial
       [ChatAgent.Typed "hi"; ChatAgent.SubmitEvent;
        ChatAgent.Settled 0 (@Rejected ChatAgent.reply_body)] in
   ChatAgent.chatInput_disabled st' = false /\
   ChatAgent.chatSubmitButton_disabled st' = false /\
   ChatAgent.fetched
     (ChatAgent.run st' [ChatAgent.Typed "again"; ChatAgent.SubmitEvent])
   = (ChatAgent.fetched st'
      ++ [{| ChatAgent.url := ChatAgent.AGENT_PROXY_ENDPOINT;
             ChatAgent.message := "again" |}])%list) /\
  (let st' :=
     OrderStatus.run sample_host OrderStatus.initial
       [OrderStatus.Typed (UTF16.of_string "Ada"); OrderStatus.SubmitEvent;
        OrderStatus.Settled 0 (Response 500 (@NotJson OrderStatus.payload))] in
   OrderStatus.fetched
     (OrderStatus.run sample_host st'
        [OrderStatus.Typed (UTF16.of_string "Bob"); OrderStatus.SubmitEvent])
   = (OrderStatus.fetched st'
      ++ ["https://my-unique-business-api.azurewebsites.net/api/order-status/Bob"])%list).
Proof.
  split.
  - apply (proj1 every_outcome_leaves_component_ready
             (ChatAgent.run ChatAgent.initial [ChatAgent.Typed "hi"; ChatAgent.SubmitEvent])
             0%nat 1%nat Rejected "again"); reflexivity.
  - apply (proj2 every_outcome_leaves_component_ready sample_host
             (OrderStatus.run sample_host OrderStatus.initial
                [OrderStatus.Typed (UTF16.of_string "Ada"); OrderStatus.SubmitEvent])
             0%nat
             "https://my-unique-business-api.azurewebsites.net/api/order-status/Ada"
             (Response 500 NotJson) (UTF16.of_string "Bob") "Bob"); reflexivity.
Defined.

(** C8: a lookup run to completion leaves in the results container a text
    that is a function of the host and of the response alone.  Two lookups
    for the same query that receive the same response therefore show the
    same text, whatever the page showed before, also when the second
    follows the first; and each of them calls [fetch], nothing is cached.
    (A query is one for which [encodeURIComponent] returns; for any other
    no lookup takes place.) *)
Theorem identical_lookups_render_identically
  (host : OrderStatus.Host) (st1 st2 : OrderStatus.state) (text : UTF16.wide)
  (segment : string) (r : settled OrderStatus.payload) :
  OrderStatus.in_flight st1 = [] ->
  OrderStatus.in_flight st2 = [] ->
  wide_blank text = false ->
  UTF16.encodeURIComponent (UTF16.trim text) = Some segment ->
  let lookup st :=
    OrderStatus.run host st
      [OrderStatus.Typed text; OrderStatus.SubmitEvent; OrderStatus.Settled 0 r] in
  let called := (OrderStatus.API_BASE_URL ++ segment)%string in
  OrderStatus.resultsContainer_innerHTML (lookup st1) = rendered host r /\
  OrderStatus.resultsContainer_innerHTML (lookup st1)
  = OrderStatus.resultsContainer_innerHTML (lookup st2) /\
  OrderStatus.resultsContainer_innerHTML (lookup (lookup st1))
  = OrderStatus.resultsContainer_innerHTML (lookup st1) /\
  OrderStatus.fetched (lookup (lookup st1))
  = (OrderStatus.fetched st1 ++ [called; called])%list.
Proof.
  intros F1 F2 B E lookup called.
  destruct (lookup_round_trip host st1 text segment r F1 B E) as (H1 & I1 & C1).
  destruct (lookup_round_trip host st2 text segment r F2 B E) as (H2 & _ & _).
  destruct (lookup_round_trip host (lookup st1) text segment r I1 B E) as (H3 & _ & C3).
  fold (lookup st1) in H1, C1. fold (lookup st2) in H2.
  fold (lookup (lookup st1)) in H3, C3.
  repeat split.
  - exact H1.
  - rewrite H1, H2. reflexivity.
  - rewrite H3, H1. reflexivity.
  - rewrite C3, C1, <- app_assoc. reflexivity.
Qed.

End Submission.

(** ** Numbers: [toFixed(2)] and the [|| 0] defaulting *)

Section Numbers.
Import JS.

Lemma length_app_string (a b : string) :
  String.length (a ++ b) = (String.length a + String.length b)%nat.
Proof. induction a as [|c a IH]; simpl; [reflexivity | rewrite IH; reflexivity]. Qed.

Lemma length_zeros (k : nat) : String.length (zeros k) = k.
Proof. induction k as [|k IH]; simpl; [reflexivity | rewrite IH; reflexivity]. Qed.

Lemma length_substring (s : string) (n m : nat) :
  (n + m <= String.length s)%nat -> String.length (substring n m s) = m.
Proof.
  revert n m. induction s as [|c s IH]; intros [|n] [|m]; simpl; intros H;
    try reflexivity; try lia.
  - rewrite (IH 0%nat m) by (simpl; lia). reflexivity.
  - apply (IH n 0%nat). lia.
  - apply (IH n (S m)). lia.
Qed.

Lemma all_digits_app (a b : string) :
  all_digits (a ++ b) = all_digits a && all_digits b.
Proof.
  induction a as [|c a IH]; simpl; [reflexivity|].
  rewrite IH, andb_assoc. reflexivity.
Qed.

Lemma all_digits_zeros (k : nat) : all_digits (zeros k) = true.
Proof. induction k as [|k IH]; simpl; [reflexivity | exact IH]. Qed.

Lemma all_digits_substring (s : string) (n m : nat) :
  all_digits s = true -> all_digits (substring n m s) = true.
Proof.
  revert n m. induction s as [|c s IH]; intros [|n] [|m]; simpl; intros H;
    try reflexivity; apply andb_true_iff in H as [Hc Hs].
  - rewrite Hc. apply IH, Hs.
  - apply IH, Hs.
  - apply IH, Hs.
Qed.

Lemma all_digits_uint (d : Decimal.uint) :
  all_digits (NilEmpty.string_of_uint d) = true.
Proof. induction d; simpl; auto. Qed.

Lemma digits_all_digits (n : N) : all_digits (digits n) = true.
Proof.
  unfold digits, NilZero.string_of_uint.
  pose proof (all_digits_uint (N.to_uint n)) as H.
  destruct (N.to_uint n); [reflexivity | exact H ..].
Qed.

Lemma digits_length (n : N) : (1 <= String.length (digits n))%nat.
Proof.
  unfold digits, NilZero.string_of_uint.
  destruct (N.to_uint n); simpl; lia.
Qed.

Lemma point2_shape (n : N) :
  exists a b,
    point2 n = a ++ "." ++ b /\
    a <> EmptyString /\ all_digits a = true /\
    all_digits b = true /\ String.length b = 2%nat.
Proof.
  unfold point2.
  set (m := if (String.length (digits n) <=? 2)%nat
            then zeros (3 - String.length (digits n)) ++ digits n
            else digits n).
  assert (all_digits m = true) as D.
  { unfold m. destruct (String.length (digits n) <=? 2)%nat.
    - rewrite all_digits_app, all_digits_zeros, digits_all_digits. reflexivity.
    - apply digits_all_digits. }
  assert (3 <= String.length m)%nat as L.
  { unfold m. destruct (String.length (digits n) <=? 2)%nat eqn:C.
    - apply Nat.leb_le in C. rewrite length_app_string, length_zeros. lia.
    - apply Nat.leb_gt in C. lia. }
  exists (substring 0 (String.length m - 2) m), (substring (String.length m - 2) 2 m).
  split; [reflexivity|].
  split.
  - intros E.
    pose proof (length_substring m 0 (String.length m - 2)) as K.
    rewrite E in K. simpl in K. lia.
  - split; [apply all_digits_substring, D|].
    split; [apply all_digits_substring, D|].
    apply length_substring. lia.
Qed.

(** A finite number below [10^21] prints with exactly two decimal digits. *)
Lemma toFixed2_two_decimals (big : number -> string) (x : number) :
  positional x = true -> two_decimals (toFixed2 big x).
Proof.
  destruct x as [s | s | | s m e]; simpl; try discriminate; intros P.
  - exists EmptyString, "0", "00". repeat split. left; reflexivity. discriminate.
  - apply negb_true_iff in P. rewrite P.
    destruct (point2_shape (nearest_hundredths m e)) as (a & b & E & Na & Da & Db & Lb).
    exists (if s then "-" else EmptyString), a, b. rewrite E.
    repeat split; try assumption.
    destruct s; [right | left]; reflexivity.
Qed.

(** [|| 0] against the spec's [orDefault(0)]: on fields that do not hold
    [NaN] the two sums print the same. *)
Lemma or_zero_refines_orDefault (big : number -> string) (f g : field number) :
  not_nan f = true -> not_nan g = true ->
  toFixed2 big (add (or_zero f) (or_zero g))
  = toFixed2 big (add (orDefault zero f) (orDefault zero g)).
Proof.
  destruct f as [| |[sf | sf | |sf mf ef]], g as [| |[sg | sg | |sg mg eg]];
    try discriminate; intros _ _;
    cbn [or_zero orDefault number_falsy]; try reflexivity;
    try (destruct sf; reflexivity); try (destruct sg; reflexivity);
    destruct sf, sg; reflexivity.
Qed.

(** On absent fields the sum is [0]. *)
Lemma add_absent (f g : field number) :
  absent f = true -> absent g = true -> add (or_zero f) (or_zero g) = zero.
Proof. destruct f, g; try discriminate; reflexivity. Qed.

End Numbers.

(** ** The order-status script: the lines of the receipt *)

Section Receipt.
Import JS Net OrderStatus.

Lemma has_line_at (l : list string) (k : nat) (bpre b0 : string) (bs : list string)
  (v after apost : string) (rest : list string) :
  skipn k l = ((bpre ++ b0)%string :: bs ++ v :: (after ++ apost)%string :: rest)%list ->
  has_line (b0 ++ String.concat EmptyString bs) v after (String.concat EmptyString l).
Proof.
  intros H. pose proof (firstn_skipn k l) as E. rewrite H in E. rewrite <- E.
  rewrite concat_app, concat_cons, concat_app, !concat_cons.
  exists (String.concat EmptyString (firstn k l) ++ bpre),
         (apost ++ String.concat EmptyString rest).
  rewrite !append_assoc. reflexivity.
Qed.

(** Where the template puts each substituted value. *)
Lemma receipt_lines (s : RenderedSummary) :
  date_line "Order Date:" (r_orderDate s) (receipt s) /\
  date_line "Ready for Pickup:" (r_readyDate s) (receipt s) /\
  date_line "Customer Called:" (r_calledDate s) (receipt s) /\
  date_line "Final Pickup:" (r_pickupDate s) (receipt s) /\
  price_line "Mount Price:" (r_mountPrice s) (receipt s) /\
  price_line "Board Price:" (r_boardPrice s) (receipt s) /\
  total_line (r_totalCost s) (receipt s) /\
  paid_line "Initial Deposit:" (r_totalDeposit s) (receipt s) /\
  paid_line "Additional Payments:" (r_subsequentPayments s) (receipt s) /\
  balance_line (r_balance s) (receipt s) /\
  updated_line (r_lastUpdated s) (receipt s).
Proof.
  unfold date_line, price_line, paid_line, total_line, balance_line, updated_line,
    receipt.
  repeat split.
  - eapply (has_line_at _ 21 ">" "<span><strong>Order Date: </strong></span><span>"
             [] _ "</span></div>" EmptyString). reflexivity.
  - eapply (has_line_at _ 29 ">" "<span><strong>Ready for Pickup: </strong></span><span>"
             [] _ "</span></div>" EmptyString). reflexivity.
  - eapply (has_line_at _ 37 ">" "<span><strong>Customer Called: </strong></span><span>"
             [] _ "</span></div>" EmptyString). reflexivity.
  - eapply (has_line_at _ 45 ">" "<span><strong>Final Pickup: </strong></span><span>"
             [] _ "</span></div>" EmptyString). reflexivity.
  - eapply (has_line_at _ 67 ">" "<span>Mount Price:</span><span> $"
             [] _ "</span></div>" EmptyString). reflexivity.
  - eapply (has_line_at _ 75 ">" "<span>Board Price:</span><span> $"
             [] _ "</span></div>" EmptyString). reflexivity.
  - eapply (has_line_at _ 83 ">" "<strong>Total Cost:</strong><strong> $"
             [] _ "</strong></div>" EmptyString). reflexivity.
  - eapply (has_line_at _ 93 ">" "<span>Initial Deposit:</span><span> - $"
             [] _ "</span></div>" EmptyString). reflexivity.
  - eapply (has_line_at _ 101 ">" "<span>Additional Payments:</span><span> - $"
             [] _ "</span></div>" EmptyString). reflexivity.
  - eapply (has_line_at _ 117 "                                "
             "<strong>Balance Due:</strong>"
             [nl; "                                <strong>$"]
             _ "</strong>" EmptyString). reflexivity.
  - eapply (has_line_at _ 138 "                                " "<p>Last Updated: "
             [] _ "</p>" EmptyString). reflexivity.
Qed.

Lemma two_decimals_has_point (x : string) : two_decimals x -> includes "." x = true.
Proof.
  intros (sign & a & b & -> & _). rewrite <- append_assoc.
  apply (includes_app "." (sign ++ a) b).
Qed.

End Receipt.

(** ** The order-status script: rendering *)

Section OrderStatusRendering.
Import JS Net OrderStatus.

Variable host : Host.

Lemma substitutions_present (data : payload) (b : number) :
  balance data = Val b ->
  substitutions host data =
  inr {| r_customerName := interpolate (customerName data);
         r_orderDate := formatDate host (orderDate data);
         r_readyDate := formatDate host (readyDate data);
         r_calledDate := formatDate host (calledDate data);
         r_pickupDate := formatDate host (pickupDate data);
         r_mountPrice := toFixed host (or_zero (mountPrice data));
         r_boardPrice := toFixed host (or_zero (boardPrice data));
         r_totalCost := toFixed host (totalCost data);
         r_totalDeposit := toFixed host (totalDeposit data);
         r_subsequentPayments := toFixed host (subsequentPayments data);
         r_balance := toFixed host b;
         r_lastUpdated := formatDateTime host (lastUpdatedAt data) |}.
Proof. intros H. unfold substitutions. rewrite H. reflexivity. Qed.

Lemma substitutions_absent (data : payload) :
  absent (balance data) = true -> substitutions host data = inl TypeError.
Proof.
  intros H. unfold substitutions. destruct (balance data); [| |discriminate];
    reflexivity.
Qed.

Lemma formatDate_pending (f : field string) :
  (forall x, toLocaleDateString host x <> "Pending") ->
  nonempty_if_present f = true ->
  formatDate host f = "Pending" <-> absent f = true.
Proof.
  intros L N. unfold formatDate.
  destruct f as [| |[|c s]]; simpl in *; try discriminate;
    split; intros H; try reflexivity; try discriminate.
  exfalso. exact (L _ H).
Qed.

Lemma formatDateTime_na (f : field string) :
  (forall x, toLocaleString host x <> "N/A") ->
  nonempty_if_present f = true ->
  formatDateTime host f = "N/A" <-> absent f = true.
Proof.
  intros L N. unfold formatDateTime.
  destruct f as [| |[|c s]]; simpl in *; try discriminate;
    split; intros H; try reflexivity; try discriminate.
  exfalso. exact (L _ H).
Qed.

(** C2, amended.  Order-status lookup: a non-2xx response whose body carries
    a [detail] string shows exactly that string inside a red paragraph; a
    rejected fetch or a body that is not JSON shows the fixed "could not
    connect" message.  Chat controller: a non-2xx response shows the fixed
    apology whatever the body carries, and the [detail] (or "Unknown error"
    when it is missing or empty) goes to the logged error only. *)
Theorem failure_rendering :
  (forall (st : state) status data d,
      ok status = false ->
      detail data = Val d ->
      resultsContainer_innerHTML (on_settled host (Response status (JsonObject data)) st)
      = "<p style=" ++ dq ++ "color: red;" ++ dq ++ ">" ++ d ++ "</p>") /\
  (forall (st : state),
      resultsContainer_innerHTML (on_settled host Rejected st) = could_not_connect) /\
  (forall (st : state) status,
      resultsContainer_innerHTML (on_settled host (Response status NotJson) st)
      = could_not_connect) /\
  (forall (st : ChatAgent.state) element m status errorData,
      ok status = false ->
      nth_error (ChatAgent.chatWindow st) element = Some m ->
      let st' := ChatAgent.on_settled element (Response status (JsonObject errorData)) st in
      paragraph_at element st' = Some (ChatAgent.innerHTML ChatAgent.apology) /\
      ChatAgent.console st'
      = (ChatAgent.console st
         ++ [Error ("API Error: " ++ Z_toString status ++ " - "
                    ++ (if field_falsy (ChatAgent.detail errorData)
                        then "Unknown error"
                        else interpolate (ChatAgent.detail errorData)))])%list).
Proof.
  split; [|split; [|split]].
  - intros st status data d K D.
    rewrite on_settled_innerHTML. unfold rendered, try_block. rewrite K. simpl.
    unfold detail_markup. rewrite D. reflexivity.
  - intros st. rewrite on_settled_innerHTML. reflexivity.
  - intros st status. rewrite on_settled_innerHTML. reflexivity.
  - intros st element m status errorData K N. cbv zeta.
    apply (on_settled_failure element _ _ st m); [|exact N].
    apply ChatAgent_try_block_rejection, K.
Qed.

(** The summary is on the page once a 2xx response with a balance has
    settled, each value on the line of its label. *)
Lemma summary_lines (st : state) (status : Z) (data : payload) (b : number) :
  ok status = true ->
  balance data = Val b ->
  let page :=
    resultsContainer_innerHTML (on_settled host (Response status (JsonObject data)) st) in
  date_line "Order Date:" (formatDate host (orderDate data)) page /\
  date_line "Ready for Pickup:" (formatDate host (readyDate data)) page /\
  date_line "Customer Called:" (formatDate host (calledDate data)) page /\
  date_line "Final Pickup:" (formatDate host (pickupDate data)) page /\
  price_line "Mount Price:" (toFixed host (or_zero (mountPrice data))) page /\
  price_line "Board Price:" (toFixed host (or_zero (boardPrice data))) page /\
  total_line (toFixed host (totalCost data)) page /\
  paid_line "Initial Deposit:" (toFixed host (totalDeposit data)) page /\
  paid_line "Additional Payments:" (toFixed host (subsequentPayments data)) page /\
  balance_line (toFixed host b) page /\
  updated_line (formatDateTime host (lastUpdatedAt data)) page.
Proof.
  intros K B page. unfold page.
  rewrite on_settled_innerHTML. unfold rendered, try_block. rewrite K. cbn [negb].
  rewrite (substitutions_present data b B).
  match goal with
  | |- context [receipt ?s] => exact (receipt_lines s)
  end.
Qed.

(** C3, amended: for a 2xx response, a payload whose balance is missing or
    null makes the renderer abandon the summary: the page shows the error
    message of the catch block, in which neither "$NaN" nor "$0.00" occurs,
    and the TypeError is logged.  A payload whose balance is present puts on
    the page's "Balance Due" line [toFixed(2)] of the payload's balance,
    whatever the other fields hold; that text has exactly two decimals when
    the balance is a finite number below 10^21. *)
Theorem balance_is_required_and_shown_as_is
  (st : state) (status : Z) (data : payload) :
  ok status = true ->
  let st' := on_settled host (Response status (JsonObject data)) st in
  (absent (balance data) = true ->
   resultsContainer_innerHTML st' = could_not_connect /\
   console st' = (console st ++ [logged data; errored TypeError])%list /\
   includes "$NaN" (resultsContainer_innerHTML st') = false /\
   includes "$0.00" (resultsContainer_innerHTML st') = false) /\
  (forall b, balance data = Val b ->
   balance_line (toFixed2 (Number_toString host) b) (resultsContainer_innerHTML st') /\
   (positional b = true -> two_decimals (toFixed2 (Number_toString host) b))).
Proof.
  intros K st'. unfold st'. split.
  - intros A.
    assert (resultsContainer_innerHTML
              (on_settled host (Response status (JsonObject data)) st)
            = could_not_connect) as E.
    { rewrite on_settled_innerHTML. unfold rendered, try_block. rewrite K. simpl.
      rewrite (substitutions_absent data A). reflexivity. }
    rewrite E. repeat split.
    unfold on_settled, try_block. rewrite K. cbn [negb].
    rewrite (substitutions_absent data A). simpl. rewrite <- app_assoc. reflexivity.
  - intros b B. split.
    + apply (summary_lines st status data b K B).
    + apply toFixed2_two_decimals.
Qed.

End OrderStatusRendering.

(** ** The order-status script: the summary *)

Section OrderStatusSummary.
Import JS Net OrderStatus.

Variable host : Host.

Lemma substitutions_inv (data : payload) (s : RenderedSummary) :
  substitutions host data = inr s ->
  r_totalCost s = toFixed host (totalCost data) /\
  r_totalDeposit s = toFixed host (totalDeposit data) /\
  r_subsequentPayments s = toFixed host (subsequentPayments data).
Proof.
  unfold substitutions. destruct (balance data); try discriminate.
  intros [= <-]. repeat split.
Qed.

(** C4, amended: once a 2xx response has settled, a payload with the six
    optional currency fields absent and a balance of 12.5 shows 0.00 on the
    lines of both prices, of the total cost, of the initial deposit and of
    the additional payments, and 12.50 on the balance line.  In general the
    three lines show the totals, each the sum of its two fields with an
    absent field counting as 0: the text is that of the spec's
    [orDefault(0)] sum, and it has exactly two decimals when the sum is a
    finite number below 10^21. *)
Theorem defaulting_law (st : state) (status : Z) (data : payload) :
  ok status = true ->
  let page :=
    resultsContainer_innerHTML (on_settled host (Response status (JsonObject data)) st) in
  (absent (mountPrice data) = true -> absent (boardPrice data) = true ->
   absent (depositCash data) = true -> absent (depositCheck data) = true ->
   absent (paymentCash data) = true -> absent (paymentCheck data) = true ->
   balance data = Val (dyadic 25 (-1)) ->
   price_line "Mount Price:" "0.00" page /\
   price_line "Board Price:" "0.00" page /\
   total_line "0.00" page /\
   paid_line "Initial Deposit:" "0.00" page /\
   paid_line "Additional Payments:" "0.00" page /\
   balance_line "12.50" page) /\
  (forall b, balance data = Val b ->
   total_line (toFixed host (totalCost data)) page /\
   paid_line "Initial Deposit:" (toFixed host (totalDeposit data)) page /\
   paid_line "Additional Payments:" (toFixed host (subsequentPayments data)) page) /\
  ((not_nan (mountPrice data) = true -> not_nan (boardPrice data) = true ->
    toFixed host (totalCost data)
    = toFixed host (add (orDefault zero (mountPrice data))
                        (orDefault zero (boardPrice data)))) /\
   (not_nan (depositCash data) = true -> not_nan (depositCheck data) = true ->
    toFixed host (totalDeposit data)
    = toFixed host (add (orDefault zero (depositCash data))
                        (orDefault zero (depositCheck data)))) /\
   (not_nan (paymentCash data) = true -> not_nan (paymentCheck data) = true ->
    toFixed host (subsequentPayments data)
    = toFixed host (add (orDefault zero (paymentCash data))
                        (orDefault zero (paymentCheck data))))) /\
  ((positional (totalCost data) = true ->
    two_decimals (toFixed host (totalCost data))) /\
   (positional (totalDeposit data) = true ->
    two_decimals (toFixed host (totalDeposit data))) /\
   (positional (subsequentPayments data) = true ->
    two_decimals (toFixed host (subsequentPayments data)))).
Proof.
  intros K page. split; [|split; [|split]].
  - intros M B DC DK PC PK Bal.
    destruct (summary_lines host st status data _ K Bal)
      as (_ & _ & _ & _ & Lm & Lb & Lt & Ld & Lp & Lbal & _).
    fold page in Lm, Lb, Lt, Ld, Lp, Lbal.
    unfold totalCost in Lt. unfold totalDeposit in Ld. unfold subsequentPayments in Lp.
    rewrite (add_absent _ _ M B) in Lt. rewrite (add_absent _ _ DC DK) in Ld.
    rewrite (add_absent _ _ PC PK) in Lp.
    destruct (mountPrice data), (boardPrice data); try discriminate;
      repeat split; assumption.
  - intros b Bal.
    destruct (summary_lines host st status data b K Bal)
      as (_ & _ & _ & _ & _ & _ & Lt & Ld & Lp & _).
    repeat split; assumption.
  - unfold toFixed, totalCost, totalDeposit, subsequentPayments.
    repeat split; intros N1 N2; apply or_zero_refines_orDefault; assumption.
  - repeat split; apply toFixed2_two_decimals.
Qed.

(** C5: once a 2xx response with a balance has settled, the page shows on
    the line of each of the four workflow dates the text "Pending" exactly
    when that date is missing or null, whatever the other fields hold, and
    on the last-updated line the text "N/A" exactly when the timestamp is
    missing or null.  The host's date rendering is taken never to produce
    these two labels, and a present date is taken to be a non-empty
    string. *)
Theorem date_defaulting (st : state) (status : Z) (data : payload) (b : number) :
  (forall x, toLocaleDateString host x <> "Pending") ->
  (forall x, toLocaleString host x <> "N/A") ->
  nonempty_if_present (orderDate data) = true ->
  nonempty_if_present (readyDate data) = true ->
  nonempty_if_present (calledDate data) = true ->
  nonempty_if_present (pickupDate data) = true ->
  nonempty_if_present (lastUpdatedAt data) = true ->
  ok status = true ->
  balance data = Val b ->
  let page :=
    resultsContainer_innerHTML (on_settled host (Response status (JsonObject data)) st) in
  (date_line "Order Date:" (formatDate host (orderDate data)) page /\
   (formatDate host (orderDate data) = "Pending" <-> absent (orderDate data) = true)) /\
  (date_line "Ready for Pickup:" (formatDate host (readyDate data)) page /\
   (formatDate host (readyDate data) = "Pending" <-> absent (readyDate data) = true)) /\
  (date_line "Customer Called:" (formatDate host (calledDate data)) page /\
   (formatDate host (calledDate data) = "Pending" <-> absent (calledDate data) = true)) /\
  (date_line "Final Pickup:" (formatDate host (pickupDate data)) page /\
   (formatDate host (pickupDate data) = "Pending" <-> absent (pickupDate data) = true)) /\
  (updated_line (formatDateTime host (lastUpdatedAt data)) page /\
   (formatDateTime host (lastUpdatedAt data) = "N/A"
    <-> absent (lastUpdatedAt data) = true)).
Proof.
  intros LD LT No Nr Nc Np Nl K Bal page.
  destruct (summary_lines host st status data b K Bal)
    as (Lo & Lr & Lc & Lp & _ & _ & _ & _ & _ & _ & Lu).
  fold page in Lo, Lr, Lc, Lp, Lu.
  repeat (split; [split; [assumption|]|]); [| | | |split; [assumption|]];
    first [apply formatDate_pending; assumption
          |apply formatDateTime_na; assumption].
Qed.

End OrderStatusSummary.

(** ** The properties at concrete pages and payloads *)

Section Examples.
Import JS Net.

Lemma failure_rendering_witness :
  OrderStatus.resultsContainer_innerHTML
    (OrderStatus.on_settled sample_host (Response 404 (JsonObject not_found))
       searching_for_Ada)
  = "<p style=" ++ dq ++ "color: red;" ++ dq ++ ">" ++ "Not found" ++ "</p>" /\
  (let st' :=
     ChatAgent.on_settled 1
       (Response 404
          (JsonObject {| ChatAgent.reply := Undefined; ChatAgent.detail := Val "Not found" |}))
       waiting_for_reply in
   paragraph_at 1 st' = Some (ChatAgent.innerHTML ChatAgent.apology) /\
   ChatAgent.console st' = [Error "API Error: 404 - Not found"]).
Proof.
  destruct (failure_rendering sample_host) as (L & _ & _ & C).
  split.
  - apply (L searching_for_Ada 404%Z not_found "Not found"); reflexivity.
  - apply (C waiting_for_reply 1%nat
             {| ChatAgent.sender := ChatAgent.assistant;
                ChatAgent.body := ChatAgent.innerText "..." |}
             404%Z
             {| ChatAgent.reply := Undefined; ChatAgent.detail := Val "Not found" |});
      reflexivity.
Defined.

Lemma balance_is_required_and_shown_as_is_witness :
  (OrderStatus.resultsContainer_innerHTML
     (OrderStatus.on_settled sample_host (Response 200 (JsonObject no_balance_order))
        searching_for_Ada)
   = OrderStatus.could_not_connect) /\
  (balance_line "224.25"
     (OrderStatus.resultsContainer_innerHTML
        (OrderStatus.on_settled sample_host (Response 200 (JsonObject open_order))
           searching_for_Ada)) /\
   two_decimals "224.25").
Proof.
  split.
  - apply (proj1 (balance_is_required_and_shown_as_is sample_host searching_for_Ada
                    200%Z no_balance_order eq_refl)).
    reflexivity.
  - destruct (proj2 (balance_is_required_and_shown_as_is sample_host searching_for_Ada
                       200%Z open_order eq_refl)
                (dyadic 897 (-2)) eq_refl) as (L & T).
    split; [exact L|exact (T eq_refl)].
Defined.

(** C3, as the spec states it, fails: a balance of 10^21 (the JSON literal
    1e21) is shown as "1e+21", and a balance that overflows (the JSON
    literal 1e999) as "Infinity"; neither text has two decimals. *)
Lemma huge_balance_is_not_shown_with_two_decimals :
  let page (b : number) :=
    OrderStatus.resultsContainer_innerHTML
      (OrderStatus.on_settled sample_host
         (Response 200 (JsonObject (with_balance (Val b) open_order)))
         searching_for_Ada) in
  (balance_line "1e+21" (page ten_to_21) /\ ~ two_decimals "1e+21") /\
  (balance_line "Infinity" (page infinity) /\ ~ two_decimals "Infinity").
Proof.
  intros page. split; split.
  - apply (summary_lines sample_host searching_for_Ada 200%Z
             (with_balance (Val ten_to_21) open_order) ten_to_21 eq_refl eq_refl).
  - intros H. apply two_decimals_has_point in H. discriminate.
  - apply (summary_lines sample_host searching_for_Ada 200%Z
             (with_balance (Val infinity) open_order) infinity eq_refl eq_refl).
  - intros H. apply two_decimals_has_point in H. discriminate.
Qed.

Lemma defaulting_law_witness :
  (let page :=
     OrderStatus.resultsContainer_innerHTML
       (OrderStatus.on_settled sample_host (Response 200 (JsonObject bare_order))
          searching_for_Ada) in
   price_line "Mount Price:" "0.00" page /\
   price_line "Board Price:" "0.00" page /\
   total_line "0.00" page /\
   paid_line "Initial Deposit:" "0.00" page /\
   paid_line "Additional Payments:" "0.00" page /\
   balance_line "12.50" page) /\
  (let page :=
     OrderStatus.resultsContainer_innerHTML
       (OrderStatus.on_settled sample_host (Response 200 (JsonObject open_order))
          searching_for_Ada) in
   (total_line "399.50" page /\
    paid_line "Initial Deposit:" "150.00" page /\
    paid_line "Additional Payments:" "25.25" page) /\
   (two_decimals "399.50" /\ two_decimals "150.00" /\ two_decimals "25.25")).
Proof.
  split.
  - apply (proj1 (defaulting_law sample_host searching_for_Ada 200%Z bare_order
                    eq_refl));
      reflexivity.
  - destruct (proj2 (defaulting_law sample_host searching_for_Ada 200%Z open_order
                       eq_refl)) as (L & _ & T1 & T2 & T3).
    split.
    + exact (L (dyadic 897 (-2)) eq_refl).
    + exact (conj (T1 eq_refl) (conj (T2 eq_refl) (T3 eq_refl))).
Defined.

(** C4, as the spec states it, fails: with both prices at the largest finite
    number (the JSON literal 1.7976931348623157e308) the total cost
    overflows and its line shows "Infinity", which has no two decimals. *)
Lemma overflowing_total_is_not_shown_with_two_decimals :
  let data := with_prices (Val largest_finite) (Val largest_finite) open_order in
  let page :=
    OrderStatus.resultsContainer_innerHTML
      (OrderStatus.on_settled sample_host (Response 200 (JsonObject data))
         searching_for_Ada) in
  total_line "Infinity" page /\ ~ two_decimals "Infinity".
Proof.
  intros data page. split.
  - apply (summary_lines sample_host searching_for_Ada 200%Z data (dyadic 897 (-2))
             eq_refl eq_refl).
  - intros H. apply two_decimals_has_point in H. discriminate.
Qed.

Lemma date_defaulting_witness :
  let page :=
    OrderStatus.resultsContainer_innerHTML
      (OrderStatus.on_settled sample_host (Response 200 (JsonObject open_order))
         searching_for_Ada) in
  (date_line "Order Date:"
     (OrderStatus.formatDate sample_host (OrderStatus.orderDate open_order)) page /\
   (OrderStatus.formatDate sample_host (OrderStatus.orderDate open_order) = "Pending"
    <-> absent (OrderStatus.orderDate open_order) = true)) /\
  (date_line "Ready for Pickup:"
     (OrderStatus.formatDate sample_host (OrderStatus.readyDate open_order)) page /\
   (OrderStatus.formatDate sample_host (OrderStatus.readyDate open_order) = "Pending"
    <-> absent (OrderStatus.readyDate open_order) = true)) /\
  (date_line "Customer Called:"
     (OrderStatus.formatDate sample_host (OrderStatus.calledDate open_order)) page /\
   (OrderStatus.formatDate sample_host (OrderStatus.calledDate open_order) = "Pending"
    <-> absent (OrderStatus.calledDate open_order) = true)) /\
  (date_line "Final Pickup:"
     (OrderStatus.formatDate sample_host (OrderStatus.pickupDate open_order)) page /\
   (OrderStatus.formatDate sample_host (OrderStatus.pickupDate open_order) = "Pending"
    <-> absent (OrderStatus.pickupDate open_order) = true)) /\
  (updated_line
     (OrderStatus.formatDateTime sample_host (OrderStatus.lastUpdatedAt open_order))
     page /\
   (OrderStatus.formatDateTime sample_host (OrderStatus.lastUpdatedAt open_order)
    = "N/A"
    <-> absent (OrderStatus.lastUpdatedAt open_order) = true)).
Proof.
  apply (date_defaulting sample_host searching_for_Ada 200%Z open_order
           (dyadic 897 (-2)));
    try reflexivity; intros x; simpl; discriminate.
Defined.

Lemma identical_lookups_render_identically_witness :
  let lookup st :=
    OrderStatus.run sample_host st
      [OrderStatus.Typed (UTF16.of_string "Ada"); OrderStatus.SubmitEvent;
       OrderStatus.Settled 0 (Response 200 (JsonObject open_order))] in
  let stale := OrderStatus.set_innerHTML "<p>stale</p>" OrderStatus.initial in
  OrderStatus.resultsContainer_innerHTML (lookup OrderStatus.initial)
  = OrderStatus.resultsContainer_innerHTML (lookup stale) /\
  OrderStatus.resultsContainer_innerHTML (lookup (lookup OrderStatus.initial))
  = OrderStatus.resultsContainer_innerHTML (lookup OrderStatus.initial) /\
  OrderStatus.fetched (lookup (lookup OrderStatus.initial))
  = ["https://my-unique-business-api.azurewebsites.net/api/order-status/Ada";
     "https://my-unique-business-api.azurewebsites.net/api/order-status/Ada"].
Proof.
  apply (proj2 (identical_lookups_render_identically sample_host
                  OrderStatus.initial
                  (OrderStatus.set_innerHTML "<p>stale</p>" OrderStatus.initial)
                  (UTF16.of_string "Ada") "Ada" (Response 200 (JsonObject open_order))
                  eq_refl eq_refl eq_refl eq_refl)).
Defined.

End Examples.

(** * Further properties of the scripts *)

(** ** [trim] *)

Section Trim.
Import JS.

Lemma trimEnd_idempotent (s : string) : trimEnd (trimEnd s) = trimEnd s.
Proof.
  induction s as [|c r IH]; simpl; [reflexivity|].
  destruct (trimEnd r) as [|c' r'] eqn:E.
  - destruct (is_whitespace c) eqn:W; simpl; [reflexivity|].
    rewrite W. reflexivity.
  - simpl. simpl in IH. destruct (trimEnd r') as [|c2 r2] eqn:E2.
    + destruct (is_whitespace c') eqn:W'; [discriminate|].
      rewrite IH. reflexivity.
    + rewrite IH. reflexivity.
Qed.

Lemma trimStart_fixes_trimEnd (c : ascii) (r : string) :
  is_whitespace c = false ->
  trimStart (trimEnd (String c r)) = trimEnd (String c r).
Proof.
  intros W. simpl. destruct (trimEnd r); rewrite ?W; simpl; rewrite W; reflexivity.
Qed.

Lemma trim_idempotent (s : string) : trim (trim s) = trim s.
Proof.
  unfold trim. destruct (blank s) eqn:B.
  - rewrite (trimStart_blank s B). reflexivity.
  - destruct (trimStart_not_blank s B) as (c & r & E & W). rewrite E.
    rewrite (trimStart_fixes_trimEnd c r W). apply trimEnd_idempotent.
Qed.

Lemma trim_not_empty (s : string) : blank s = false -> trim s <> EmptyString.
Proof.
  intros B E. pose proof (trim_not_blank s B) as F. rewrite E in F. discriminate.
Qed.

End Trim.

(** ** chat-agent.js: history, display log, call log and form agree *)

Section ChatAgentCoherence.
Import JS Net ChatAgent.

Lemma transcript_snoc (qs : list request) (az : list paragraph)
  (q : request) (a : paragraph) :
  List.length az = List.length qs ->
  transcript (qs ++ [q]) (az ++ [a])
  = (transcript qs az ++ [said (message q); answered a])%list.
Proof.
  revert az. induction qs as [|q0 qs IH]; intros [|a0 az] L; simpl in *;
    try discriminate; [reflexivity|].
  rewrite IH by lia. reflexivity.
Qed.

Lemma replace_nth_last {A} (l : list A) (x y : A) :
  replace_nth (List.length l) x (l ++ [y]) = (l ++ [x])%list.
Proof. induction l as [|h t IH]; simpl; [reflexivity | rewrite IH; reflexivity]. Qed.

Lemma nth_error_last {A} (l : list A) (y : A) :
  nth_error (l ++ [y]) (List.length l) = Some y.
Proof. induction l as [|h t IH]; simpl; [reflexivity | exact IH]. Qed.

Lemma chatWindow_on_settled (element : nat) (r : settled reply_body) (st : state) :
  chatWindow (on_settled element r st)
  = match nth_error (chatWindow st) element with
    | Some m => replace_nth element {| sender := sender m; body := answer r |} (chatWindow st)
    | None => chatWindow st
    end.
Proof. unfold on_settled, answer. destruct (try_block r); reflexivity. Qed.

Lemma coherent_initial : coherent initial.
Proof.
  exists []. repeat split; try reflexivity; [constructor|].
  left. repeat split.
Qed.

Lemma coherent_submit (st : state) : coherent st -> coherent (submit st).
Proof.
  intros (answers & L & W & H & F & [Idle | Waiting]).
  - destruct (blank (chatInput_value st)) eqn:B.
    + rewrite (submit_blank st B). exists answers. auto 6.
    + rewrite (submit_not_blank st B). destruct Idle as (I & _).
      exists (answers ++ [placeholder])%list. cbn [fetched chatWindow conversationHistory].
      split; [rewrite !length_app; simpl; lia|].
      split; [rewrite (transcript_snoc _ _ _ _ L), W, <- app_assoc; reflexivity|].
      split; [rewrite H, map_app; reflexivity|].
      split.
      * apply Forall_app. split; [exact F|]. constructor; [|constructor].
        repeat split; cbn [message url].
        -- apply trim_idempotent.
        -- apply trim_not_empty, B.
      * right. unfold form_waiting.
        cbn [in_flight chatWindow chatInput_disabled chatSubmitButton_disabled
             chatSubmitButton_innerText chatInput_value].
        rewrite I. repeat split.
        -- simpl. f_equal. rewrite !length_app. simpl. lia.
        -- exists answers. reflexivity.
  - destruct Waiting as (I & Z & D & D' & T & V).
    rewrite submit_blank by (rewrite V; reflexivity).
    exists answers. repeat split; try assumption. right. repeat split; assumption.
Qed.

Lemma coherent_settled (st : state) (k : nat) (r : settled reply_body) :
  coherent st -> coherent (step st (Settled k r)).
Proof.
  intros C. pose proof C as (answers & L & W & H & F & [Idle | Waiting]).
  - destruct Idle as (I & _). simpl. rewrite I. destruct k; exact C.
  - destruct Waiting as (I & (az & ->) & _).
    simpl. rewrite I. destruct k as [|k]; [|destruct k; exact C].
    cbn [nth_error].
    destruct (exists_last (l := fetched st)) as (qs & q & Q).
    { intros E. rewrite E, length_app in L. simpl in L. lia. }
    rewrite Q in L, W, H, F. rewrite !length_app in L. simpl in L.
    assert (List.length az = List.length qs) as L' by lia.
    rewrite (transcript_snoc _ _ _ _ L') in W.
    assert (chatWindow st
            = ((transcript qs az ++ [said (message q)]) ++ [answered placeholder])%list)
      as W' by (rewrite W, <- app_assoc; reflexivity).
    assert ((List.length (chatWindow st) - 1)%nat
            = List.length (transcript qs az ++ [said (message q)])) as ->
      by (rewrite W', (length_app _ [answered placeholder]); simpl; lia).
    exists (az ++ [answer r])%list.
    rewrite on_settled_history, on_settled_fetched, chatWindow_on_settled.
    cbn [resume fetched chatWindow conversationHistory in_flight].
    rewrite Q, W', nth_error_last, replace_nth_last.
    split; [rewrite !length_app; simpl; lia|].
    split; [rewrite (transcript_snoc _ _ _ _ L'), <- app_assoc; reflexivity|].
    split; [exact H|].
    split; [exact F|].
    left. unfold form_idle. rewrite on_settled_in_flight.
    destruct (on_settled_enables
                (List.length (transcript qs az ++ [said (message q)])) r (resume 0 st))
      as (E1 & E2 & E3).
    rewrite E1, E2, E3. cbn [resume in_flight]. rewrite I. repeat split.
Qed.

Lemma coherent_step (st : state) (e : event) : coherent st -> coherent (step st e).
Proof.
  destruct e as [text | | k r].
  - intros C. simpl. destruct (chatInput_disabled st) eqn:D; [exact C|].
    destruct C as (answers & L & W & H & F & [Idle | Waiting]).
    + exists answers. repeat split; try assumption. left. exact Idle.
    + destruct Waiting as (_ & _ & D' & _). congruence.
  - apply coherent_submit.
  - apply coherent_settled.
Qed.

Lemma reachable_coherent (st : state) : reachable st -> coherent st.
Proof.
  intros [events ->]. unfold run.
  assert (forall s, coherent s -> coherent (fold_left step events s)) as K.
  { induction events as [|e events IH]; intros s C; simpl; [exact C|].
    apply IH, coherent_step, C. }
  apply K, coherent_initial.
Qed.

End ChatAgentCoherence.

(** ** chat-agent.js: what the invariant gives *)

Section ChatAgentInvariants.
Import JS Net ChatAgent.

Lemma waiting_placeholder_last (st : state) (answers : list paragraph) :
  List.length answers = List.length (fetched st) ->
  chatWindow st = transcript (fetched st) answers ->
  form_waiting st answers ->
  exists log, chatWindow st = (log ++ [answered placeholder])%list
              /\ in_flight st = [List.length log].
Proof.
  intros L W (I & (az & ->) & _).
  destruct (exists_last (l := fetched st)) as (qs & q & Q).
  { intros E. rewrite E, length_app in L. simpl in L. lia. }
  rewrite Q in L, W. rewrite !length_app in L. simpl in L.
  rewrite transcript_snoc in W by lia.
  exists (transcript qs az ++ [said (message q)])%list.
  assert (chatWindow st
          = ((transcript qs az ++ [said (message q)]) ++ [answered placeholder])%list)
    as W' by (rewrite W, <- app_assoc; reflexivity).
  split; [exact W'|].
  rewrite I, W', (length_app _ [answered placeholder]). simpl. f_equal. lia.
Qed.

(** X2: in every reachable state the input field is disabled exactly while
    a request is outstanding, the button is disabled exactly when the input
    field is, and the button reads "Thinking..." when disabled and "Send"
    otherwise. *)
Theorem chat_agent_form_disabled_while_in_flight (st : state) :
  reachable st ->
  (chatInput_disabled st = true <-> in_flight st <> []) /\
  chatSubmitButton_disabled st = chatInput_disabled st /\
  chatSubmitButton_innerText st
  = (if chatInput_disabled st then "Thinking..." else "Send").
Proof.
  intros R. destruct (reachable_coherent st R) as (answers & _ & _ & _ & _ & M).
  destruct M as [(I & D & D' & T) | (I & _ & D & D' & T & _)];
    rewrite I, D, D', T; repeat split; try discriminate; congruence.
Qed.

Lemma chat_agent_form_disabled_while_in_flight_witness :
  let st := run initial [Typed "hi"; SubmitEvent; Typed "more"] in
  (chatInput_disabled st = true <-> in_flight st <> []) /\
  chatSubmitButton_disabled st = chatInput_disabled st /\
  chatSubmitButton_innerText st
  = (if chatInput_disabled st then "Thinking..." else "Send").
Proof.
  apply chat_agent_form_disabled_while_in_flight.
  exists [Typed "hi"; SubmitEvent; Typed "more"]. reflexivity.
Defined.

(** X3: in every reachable state the display log is the transcript of the
    calls made so far: for each call, in call order, the user's message
    followed by one assistant element.  A request that is outstanding has
    its placeholder "..." as the last element of the log. *)
Theorem chat_agent_log_in_submission_order (st : state) :
  reachable st ->
  exists answers,
    List.length answers = List.length (fetched st) /\
    chatWindow st = transcript (fetched st) answers /\
    (forall element, In element (in_flight st) ->
       paragraph_at element st = Some placeholder /\
       S element = List.length (chatWindow st)).
Proof.
  intros R. destruct (reachable_coherent st R) as (answers & L & W & _ & _ & M).
  exists answers. split; [exact L|]. split; [exact W|].
  intros element E. destruct M as [(I & _) | Wt].
  - rewrite I in E. contradiction.
  - destruct (waiting_placeholder_last st answers L W Wt) as (log & W' & I).
    rewrite I in E. destruct E as [<- | []].
    unfold paragraph_at. rewrite W', nth_error_last, length_app. simpl.
    split; [reflexivity | lia].
Qed.

Lemma chat_agent_log_in_submission_order_witness :
  let st :=
    run initial
      [Typed "one"; SubmitEvent;
       Settled 0 (Response 200 (JsonObject {| reply := Val "first"; detail := Undefined |}));
       Typed "two"; SubmitEvent] in
  exists answers,
    List.length answers = List.length (fetched st) /\
    chatWindow st = transcript (fetched st) answers /\
    (forall element, In element (in_flight st) ->
       paragraph_at element st = Some placeholder /\
       S element = List.length (chatWindow st)).
Proof.
  apply chat_agent_log_in_submission_order. eexists. reflexivity.
Defined.

(** X4: in every reachable state the conversation history is the greeting
    followed by the messages of the calls made so far, in call order: every
    pushed message was sent, and every sent message was pushed. *)
Theorem chat_agent_history_matches_calls (st : state) :
  reachable st ->
  conversationHistory st = greeting :: map asked (fetched st).
Proof.
  intros R. destruct (reachable_coherent st R) as (answers & _ & _ & H & _).
  exact H.
Qed.

Lemma chat_agent_history_matches_calls_witness :
  let st :=
    run initial
      [Typed "one"; SubmitEvent; Settled 0 Rejected; Typed " two "; SubmitEvent] in
  conversationHistory st = greeting :: map asked (fetched st).
Proof.
  apply chat_agent_history_matches_calls. eexists. reflexivity.
Defined.

(** X5: every call the controller has made in a reachable state went to the
    proxy endpoint and carried a message that is not empty and neither
    begins nor ends with whitespace. *)
Theorem chat_agent_requests_well_formed (st : state) :
  reachable st -> Forall well_formed_request (fetched st).
Proof.
  intros R. destruct (reachable_coherent st R) as (answers & _ & _ & _ & F & _).
  exact F.
Qed.

Lemma chat_agent_requests_well_formed_witness :
  Forall well_formed_request
    (fetched (run initial [Typed "  padded  "; SubmitEvent; Typed "   "; SubmitEvent])).
Proof.
  apply chat_agent_requests_well_formed. eexists. reflexivity.
Defined.

End ChatAgentInvariants.

(** ** chat-agent.js: round trips *)

Section ChatAgentRoundTrips.
Import JS Net ChatAgent.

(** X1: in every reachable state at most one request is outstanding, and
    while one is, no sequence of edits and submit events changes anything:
    no call is made, nothing is added to the log or to the history. *)
Theorem chat_agent_one_request_at_a_time (st : state) :
  reachable st ->
  (List.length (in_flight st) <= 1)%nat /\
  (in_flight st <> [] ->
   forall events,
     forallb (fun e => negb (is_settled e)) events = true ->
     run st events = st).
Proof.
  intros R. split.
  - destruct (reachable_guarded st R) as [G | ((x & G) & _)]; rewrite G; simpl; lia.
  - intros N events H. apply chat_agent_no_call_while_in_flight; assumption.
Qed.

Lemma chat_agent_one_request_at_a_time_witness :
  let st := run initial [Typed "hi"; SubmitEvent] in
  (List.length (in_flight st) <= 1)%nat /\
  run st [SubmitEvent; Typed "again"; SubmitEvent; SubmitEvent] = st.
Proof.
  assert (reachable (run initial [Typed "hi"; SubmitEvent])) as R
    by (eexists; reflexivity).
  destruct (chat_agent_one_request_at_a_time _ R) as (A & B).
  split; [exact A|]. apply B; [discriminate | reflexivity].
Defined.

Lemma paragraph_at_on_settled (element : nat) (r : settled reply_body)
  (st : state) (m : message_element) :
  nth_error (chatWindow st) element = Some m ->
  paragraph_at element (on_settled element r st) = Some (answer r).
Proof.
  intros H. unfold paragraph_at. rewrite chatWindow_on_settled, H.
  rewrite (nth_error_replace_nth _ _ _ _ H). reflexivity.
Qed.

(** One message sent and answered, from a page with nothing outstanding. *)
Lemma one_round_trip (st : state) (text : string) (r : settled reply_body) :
  in_flight st = [] -> chatInput_disabled st = false -> blank text = false ->
  let st' := run st [Typed text; SubmitEvent; Settled 0 r] in
  chatWindow st' = (chatWindow st ++ [said (trim text); answered (answer r)])%list /\
  in_flight st' = [] /\ chatInput_disabled st' = false.
Proof.
  intros F D B. cbv zeta.
  change (run st [Typed text; SubmitEvent; Settled 0 r])
    with (step (run st [Typed text; SubmitEvent]) (Settled 0 r)).
  rewrite (run_typed_submit st text D B).
  unfold step. cbn [in_flight]. rewrite F. cbn [app nth_error].
  rewrite chatWindow_on_settled, on_settled_in_flight.
  split; [|split].
  - cbn [resume chatWindow].
    change ((chatWindow st ++ [{| sender := user; body := innerText (trim text) |}])
            ++ [{| sender := assistant; body := innerText "..." |}])%list
      with ((chatWindow st ++ [said (trim text)]) ++ [answered placeholder])%list.
    rewrite nth_error_last, replace_nth_last, <- app_assoc. reflexivity.
  - reflexivity.
  - apply on_settled_enables.
Qed.

(** X6: two messages sent one after the other, each answered before the
    next is typed, extend the log by exactly four elements in this order:
    the first message, its answer, the second message, its answer.  An
    answer is the reply text of a 2xx JSON response and the fixed apology
    otherwise. *)
Theorem chat_agent_two_round_trips
  (st : state) (first second : string) (r1 r2 : settled reply_body) :
  in_flight st = [] -> chatInput_disabled st = false ->
  blank first = false -> blank second = false ->
  chatWindow
    (run st [Typed first; SubmitEvent; Settled 0 r1;
             Typed second; SubmitEvent; Settled 0 r2])
  = (chatWindow st
     ++ [said (trim first); answered (answer r1);
         said (trim second); answered (answer r2)])%list.
Proof.
  intros F D B1 B2.
  change (run st [Typed first; SubmitEvent; Settled 0 r1;
                  Typed second; SubmitEvent; Settled 0 r2])
    with (run (run st [Typed first; SubmitEvent; Settled 0 r1])
              [Typed second; SubmitEvent; Settled 0 r2]).
  destruct (one_round_trip st first r1 F D B1) as (W1 & F1 & D1).
  destruct (one_round_trip _ second r2 F1 D1 B2) as (W2 & _ & _).
  rewrite W2, W1, <- app_assoc. reflexivity.
Qed.

Lemma chat_agent_two_round_trips_witness :
  chatWindow
    (run initial
       [Typed "A"; SubmitEvent;
        Settled 0 (Response 200 (JsonObject {| reply := Val "Hello"; detail := Undefined |}));
        Typed "B"; SubmitEvent; Settled 0 (Response 503 NotJson)])
  = [said "A"; answered (innerText "Hello");
     said "B"; answered (innerHTML apology)].
Proof.
  apply (chat_agent_two_round_trips initial "A" "B"
           (Response 200 (JsonObject {| reply := Val "Hello"; detail := Undefined |}))
           (Response 503 NotJson));
    reflexivity.
Defined.

(** X7: the placeholder ends up holding the fixed apology exactly when the
    settled fetch is not a 2xx response whose body parses to a JSON value
    other than [null]: a rejected fetch, any non-2xx status, a body that is
    not JSON and the body [null] all show the apology, and nothing else
    does (a 2xx body that is an object, a number, a string, a boolean or an
    array shows what its [reply] property reads as). *)
Theorem chat_agent_apology_iff
  (st : state) (element : nat) (m : message_element) (r : settled reply_body) :
  nth_error (chatWindow st) element = Some m ->
  paragraph_at element (on_settled element r st) = Some (innerHTML apology)
  <-> ~ (exists status body,
            r = Response status body /\ ok status = true /\
            body <> NotJson /\ body <> JsonNull).
Proof.
  intros H. rewrite (paragraph_at_on_settled element r st m H).
  unfold answer. destruct r as [|status body]; simpl.
  - split; [intros _ (s & b & E & _); discriminate | reflexivity].
  - destruct (ok status) eqn:K; simpl.
    + destruct body as [| | |data].
      * split; [|reflexivity]. intros _ (s & b & E & _ & N & _).
        injection E as _ <-. apply N. reflexivity.
      * split; [|reflexivity]. intros _ (s & b & E & _ & _ & N).
        injection E as _ <-. apply N. reflexivity.
      * split; [discriminate|]. intros N. exfalso. apply N.
        exists status, JsonOther. repeat split; try assumption; discriminate.
      * split; [discriminate|]. intros N. exfalso. apply N.
        exists status, (JsonObject data). repeat split; try assumption; discriminate.
    + split.
      * intros _ (s & b & E & K' & _). injection E as <- _. congruence.
      * intros _. destruct body; reflexivity.
Qed.

Lemma chat_agent_apology_iff_witness :
  paragraph_at 1 (on_settled 1 (Response 200 (@JsonNull reply_body)) waiting_for_reply)
  = Some (innerHTML apology).
Proof.
  apply (chat_agent_apology_iff waiting_for_reply 1 (answered placeholder)
           (Response 200 JsonNull) eq_refl).
  intros (s & b & E & _ & _ & N). injection E as _ <-. apply N. reflexivity.
Defined.

(** X8: a 2xx response whose JSON object has no [reply] key is not treated
    as a failure: the placeholder shows the text "undefined" (and the empty
    text when [reply] is null), and nothing is logged. *)
Theorem chat_agent_missing_reply
  (st : state) (element : nat) (m : message_element) (status : Z) (data : reply_body) :
  nth_error (chatWindow st) element = Some m ->
  ok status = true ->
  let st' := on_settled element (Response status (JsonObject data)) st in
  (reply data = Undefined -> paragraph_at element st' = Some (innerText "undefined")) /\
  (reply data = Null -> paragraph_at element st' = Some (innerText EmptyString)) /\
  (absent (reply data) = true -> console st' = console st).
Proof.
  intros H K st'. unfold st'.
  rewrite (paragraph_at_on_settled element _ st m H).
  unfold answer, on_settled, try_block. rewrite K. cbn [negb].
  repeat split; intros E; try rewrite E; reflexivity.
Qed.

Lemma chat_agent_missing_reply_witness :
  paragraph_at 1
    (on_settled 1
       (Response 200 (JsonObject {| reply := Undefined; detail := Undefined |}))
       waiting_for_reply)
  = Some (innerText "undefined").
Proof.
  apply (chat_agent_missing_reply waiting_for_reply 1 (answered placeholder) 200
           {| reply := Undefined; detail := Undefined |} eq_refl eq_refl).
  reflexivity.
Defined.

End ChatAgentRoundTrips.

(** ** script.js: the window and the outstanding requests *)

Section ScriptWindow.
Import JS Net Script.

Lemma remove_nth_filter (l : list nat) (k x : nat) :
  NoDup l -> nth_error l k = Some x ->
  filter (fun y => negb (Nat.eqb y x)) l = ChatAgent.remove_nth k l.
Proof.
  revert k. induction l as [|h t IH]; intros k N H; [destruct k; discriminate|].
  inversion N as [|? ? Nh Nt]; subst.
  destruct k as [|k]; simpl in *.
  - injection H as ->. rewrite Nat.eqb_refl. simpl.
    clear IH N Nt. induction t as [|a t IHt]; simpl; [reflexivity|].
    destruct (Nat.eqb a x) eqn:E.
    + apply Nat.eqb_eq in E. subst. exfalso. apply Nh. left. reflexivity.
    + simpl. f_equal. apply IHt. intros I. apply Nh. right. exact I.
  - destruct (Nat.eqb h x) eqn:E.
    + apply Nat.eqb_eq in E. subst. exfalso. apply Nh.
      apply nth_error_In with k. exact H.
    + simpl. f_equal. apply IH; assumption.
Qed.

Lemma map_id_filter (x : nat) (w : list message_element) :
  map id (filter (fun m => negb (Nat.eqb (id m) x)) w)
  = filter (fun y => negb (Nat.eqb y x)) (map id w).
Proof.
  induction w as [|m w IH]; simpl; [reflexivity|].
  destruct (Nat.eqb (id m) x); simpl; rewrite IH; reflexivity.
Qed.

Lemma filter_swap {A} (p q : A -> bool) (l : list A) :
  filter p (filter q l) = filter q (filter p l).
Proof.
  induction l as [|a l IH]; simpl; [reflexivity|].
  destruct (p a) eqn:P, (q a) eqn:Q; simpl; rewrite ?P, ?Q, IH; reflexivity.
Qed.

Lemma filter_keeps_smaller (x : nat) (w : list message_element) :
  Forall (fun m => (id m < x)%nat) w ->
  filter (fun m => negb (Nat.eqb (id m) x)) w = w.
Proof.
  induction 1 as [|m w Hm Hw IH]; simpl; [reflexivity|].
  assert (Nat.eqb (id m) x = false) as -> by (apply Nat.eqb_neq; lia).
  simpl. rewrite IH. reflexivity.
Qed.

Lemma same_id_same_element (w : list message_element) (a b : message_element) :
  NoDup (map id w) -> In a w -> In b w -> id a = id b -> a = b.
Proof.
  induction w as [|m w IH]; simpl; [contradiction|].
  intros N Ia Ib E. inversion N as [|? ? Nm Nw]; subst.
  destruct Ia as [-> | Ia], Ib as [-> | Ib].
  - reflexivity.
  - exfalso. apply Nm. rewrite E. apply in_map, Ib.
  - exfalso. apply Nm. rewrite <- E. apply in_map, Ia.
  - apply IH; assumption.
Qed.

Lemma NoDup_map_filter (p : message_element -> bool) (w : list message_element) :
  NoDup (map id w) -> NoDup (map id (filter p w)).
Proof.
  induction w as [|m w IH]; simpl; intros N; [constructor|].
  inversion N as [|? ? Nm Nw]; subst.
  destruct (p m); simpl; [|apply IH, Nw].
  constructor; [|apply IH, Nw].
  intros I. apply Nm. apply in_map_iff in I as (m' & E & I).
  apply filter_In in I as (I & _). rewrite <- E. apply in_map, I.
Qed.

(** Removing a loading element leaves the elements of the other senders. *)
Lemma filter_other_sender (c : sender_class) (x : nat) (w : list message_element) :
  (forall m, In m w -> id m = x -> from_sender c m = false) ->
  filter (from_sender c) (filter (fun m => negb (Nat.eqb (id m) x)) w)
  = filter (from_sender c) w.
Proof.
  induction w as [|m w IH]; simpl; intros H; [reflexivity|].
  destruct (Nat.eqb (id m) x) eqn:E; simpl.
  - apply Nat.eqb_eq in E. rewrite (H m (or_introl eq_refl) E).
    apply IH. intros m' I. apply H. right. exact I.
  - destruct (from_sender c m); [f_equal|]; apply IH; intros m' I; apply H;
      right; exact I.
Qed.

Lemma on_settled_fields (element : nat) (r : settled reply_body) (st : state) :
  chatWindow (on_settled element r st)
  = (filter (fun m => negb (Nat.eqb (id m) element)) (chatWindow st)
     ++ [{| id := created st; sender := ai; textContent := script_answer r |}])%list /\
  created (on_settled element r st) = S (created st) /\
  in_flight (on_settled element r st) = in_flight st /\
  fetched (on_settled element r st) = fetched st.
Proof.
  unfold on_settled, script_answer. destruct (try_block r); repeat split.
Qed.

Lemma script_coherent_initial : script_coherent initial.
Proof. repeat split; constructor. Qed.

Lemma script_coherent_submit (st : state) :
  script_coherent st -> script_coherent (submit st).
Proof.
  intros C. destruct (blank (messageInput_value st)) eqn:B.
  - rewrite (script_submit_blank st B). exact C.
  - destruct C as (L & I & N & U & A).
    unfold submit. rewrite string_falsy_trim, B. unfold script_coherent.
    cbn [addMessage set_value fetch chatWindow created in_flight fetched fst snd].
    rewrite <- app_assoc. cbn [app].
    repeat split.
    + rewrite filter_app, map_app, L. reflexivity.
    + apply Forall_app. split.
      * eapply Forall_impl; [|exact I]. simpl. intros; lia.
      * repeat constructor; simpl; lia.
    + rewrite map_app. simpl.
      apply NoDup_app; [exact N | |].
      * repeat constructor; simpl; intuition lia.
      * intros x Hx [<- | [<- | []]];
          apply in_map_iff in Hx as (m & E & Hm);
          rewrite Forall_forall in I; specialize (I m Hm); lia.
    + rewrite filter_app, !length_app, U. reflexivity.
    + rewrite filter_app, !length_app, <- A. simpl. lia.
Qed.

Lemma script_coherent_settled (st : state) (k : nat) (r : settled reply_body) :
  script_coherent st -> script_coherent (step st (Settled k r)).
Proof.
  intros C. simpl. destruct (nth_error (in_flight st) k) as [element|] eqn:H;
    [|exact C].
  destruct C as (L & I & N & U & A).
  unfold script_coherent.
  destruct (on_settled_fields element r (resume k st)) as (-> & -> & -> & ->).
  cbn [resume chatWindow created in_flight fetched].
  assert (NoDup (in_flight st)) as Nf
    by (rewrite <- L; apply NoDup_map_filter, N).
  assert (forall m, In m (chatWindow st) -> id m = element ->
                    from_sender loading m = true) as Only.
  { intros m Im E.
    assert (In element (map id (filter (from_sender loading) (chatWindow st)))) as J
      by (rewrite L; apply nth_error_In with k; exact H).
    apply in_map_iff in J as (m0 & E0 & J). apply filter_In in J as (J & S0).
    rewrite (same_id_same_element _ m m0 N Im J); [exact S0 | congruence]. }
  repeat split.
  - rewrite filter_app, map_app, filter_swap, map_id_filter, L. simpl.
    rewrite app_nil_r. apply remove_nth_filter; assumption.
  - apply Forall_app. split.
    + apply Forall_forall. intros m Hm. apply filter_In in Hm as (Hm & _).
      rewrite Forall_forall in I. specialize (I m Hm). lia.
    + repeat constructor; simpl; lia.
  - rewrite map_app, map_id_filter. simpl.
    apply NoDup_app; [apply NoDup_filter, N | repeat constructor; simpl; tauto |].
    intros x Hx [<- | []]. apply filter_In in Hx as (Hx & _).
    apply in_map_iff in Hx as (m & E & Hm).
    rewrite Forall_forall in I. specialize (I m Hm). lia.
  - rewrite filter_app, length_app, filter_other_sender; [simpl; lia|].
    intros m Im E. specialize (Only m Im E).
    unfold from_sender in *. destruct (sender m); congruence.
  - rewrite filter_app, length_app, filter_other_sender.
    + simpl. rewrite <- A.
      assert (List.length (ChatAgent.remove_nth k (in_flight st))
              = pred (List.length (in_flight st))) as ->.
      { clear - H. revert k H. induction (in_flight st) as [|a l IH];
          intros [|k] H; simpl in *; try discriminate; [reflexivity|].
        rewrite (IH k H). destruct l; [destruct k; discriminate | reflexivity]. }
      assert (in_flight st <> []) by (intros E; rewrite E in H; destruct k; discriminate).
      destruct (in_flight st); [congruence | simpl; lia].
    + intros m Im E. specialize (Only m Im E).
      unfold from_sender in *. destruct (sender m); congruence.
Qed.

End ScriptWindow.

(** ** script.js: what the invariant gives *)

Section ScriptInvariants.
Import JS Net Script.

Lemma script_reachable_coherent (st : state) :
  script_reachable st -> script_coherent st.
Proof.
  intros [events ->]. unfold run.
  assert (forall s, script_coherent s -> script_coherent (fold_left step events s)) as K.
  { induction events as [|e events IH]; intros s C; simpl; [exact C|].
    apply IH. destruct e as [text | | k r].
    - exact C.
    - apply script_coherent_submit, C.
    - apply script_coherent_settled, C. }
  apply K, script_coherent_initial.
Qed.

(** X9: in every reachable state of script.js the loading indicators in
    the window are exactly those of the outstanding requests, in request
    order: a settled request takes its own indicator out of the window and
    no other, and no indicator stays behind. *)
Theorem script_loading_indicators_are_outstanding (st : state) :
  script_reachable st ->
  map id (filter (from_sender loading) (chatWindow st)) = in_flight st.
Proof. intros R. apply (script_reachable_coherent st R). Qed.

Lemma script_loading_indicators_are_outstanding_witness :
  let st :=
    run initial
      [Typed "A"; SubmitEvent; Typed "B"; SubmitEvent; Typed "C"; SubmitEvent;
       Settled 1 (Response 200 (JsonObject {| reply := Val "b" |}))] in
  map id (filter (from_sender loading) (chatWindow st)) = in_flight st.
Proof.
  apply script_loading_indicators_are_outstanding. eexists. reflexivity.
Defined.

(** X10: in every reachable state of script.js the window holds one user
    message per call made, and one answer per call that has settled: the
    answers and the outstanding requests together are as many as the
    calls. *)
Theorem script_every_call_answered_once (st : state) :
  script_reachable st ->
  List.length (filter (from_sender user) (chatWindow st)) = List.length (fetched st) /\
  (List.length (filter (from_sender ai) (chatWindow st))
   + List.length (in_flight st))%nat
  = List.length (fetched st).
Proof.
  intros R. destruct (script_reachable_coherent st R) as (_ & _ & _ & U & A).
  split; assumption.
Qed.

Lemma script_every_call_answered_once_witness :
  let st :=
    run initial
      [Typed "A"; SubmitEvent; Typed "B"; SubmitEvent;
       Settled 0 Rejected; Typed "C"; SubmitEvent] in
  List.length (filter (from_sender user) (chatWindow st)) = List.length (fetched st) /\
  (List.length (filter (from_sender ai) (chatWindow st))
   + List.length (in_flight st))%nat
  = List.length (fetched st).
Proof.
  apply script_every_call_answered_once. eexists. reflexivity.
Defined.

Lemma script_typed_submit (st : state) (text : string) :
  blank text = false ->
  run st [Typed text; SubmitEvent] =
  {| messageInput_value := EmptyString;
     chatWindow :=
       chatWindow st
       ++ [{| id := created st; sender := user; textContent := trim text |};
           {| id := S (created st); sender := loading; textContent := "..." |}];
     created := S (S (created st));
     in_flight := in_flight st ++ [S (created st)];
     fetched := fetched st ++ [{| url := API_URL; message := trim text |}];
     console := console st |}.
Proof.
  intros B. simpl. unfold submit.
  cbn [set_value messageInput_value]. rewrite string_falsy_trim, B.
  cbn [addMessage set_value fetch chatWindow created in_flight fetched console
       messageInput_value fst snd].
  rewrite <- app_assoc. reflexivity.
Qed.

(** X11: with two requests outstanding, answers are appended in the order
    the fetches settle.  When the second request settles first, the window
    ends with both user messages followed by the answer to the second and
    then the answer to the first; both loading indicators are gone. *)
Theorem script_answers_in_arrival_order
  (st : state) (first second : string) (r1 r2 : settled reply_body) :
  script_reachable st -> in_flight st = [] ->
  blank first = false -> blank second = false ->
  chatWindow
    (run st [Typed first; SubmitEvent; Typed second; SubmitEvent;
             Settled 1 r2; Settled 0 r1])
  = (chatWindow st
     ++ [{| id := created st; sender := user; textContent := trim first |};
         {| id := 2 + created st; sender := user; textContent := trim second |};
         {| id := 4 + created st; sender := ai; textContent := script_answer r2 |};
         {| id := 5 + created st; sender := ai; textContent := script_answer r1 |}])%list.
Proof.
  intros R F B1 B2.
  destruct (script_reachable_coherent st R) as (_ & I & _).
  change (run st [Typed first; SubmitEvent; Typed second; SubmitEvent;
                  Settled 1 r2; Settled 0 r1])
    with (step (step (run (run st [Typed first; SubmitEvent])
                          [Typed second; SubmitEvent])
                     (Settled 1 r2))
               (Settled 0 r1)).
  rewrite (script_typed_submit st first B1), (script_typed_submit _ second B2).
  cbn [chatWindow created in_flight fetched console]. rewrite F.
  cbn [app]. unfold step at 2. cbn [in_flight nth_error].
  match goal with
  | |- context [on_settled ?e r2 ?s] =>
      destruct (on_settled_fields e r2 s) as (W2 & C2 & I2 & _);
      set (s2 := on_settled e r2 s) in *
  end.
  unfold step. rewrite I2. cbn [resume in_flight ChatAgent.remove_nth nth_error].
  match goal with
  | |- context [on_settled ?e r1 ?s] =>
      destruct (on_settled_fields e r1 s) as (W1 & _)
  end.
  rewrite W1. cbn [resume chatWindow created]. rewrite W2, C2.
  cbn [resume chatWindow created].
  rewrite <- !app_assoc.
  rewrite !filter_app.
  rewrite (filter_keeps_smaller (S (S (S (created st)))) (chatWindow st))
    by (eapply Forall_impl; [|exact I]; simpl; intros; lia).
  rewrite (filter_keeps_smaller (S (created st)) (chatWindow st))
    by (eapply Forall_impl; [|exact I]; simpl; intros; lia).
  cbn [filter id app].
  repeat (first
            [ rewrite Nat.eqb_refl
            | match goal with
              | |- context [Nat.eqb ?a ?b] =>
                  replace (Nat.eqb a b) with false
                    by (symmetry; apply Nat.eqb_neq; lia)
              end ];
          cbn [negb filter id app]).
  rewrite <- !app_assoc. reflexivity.
Qed.

Lemma script_answers_in_arrival_order_witness :
  map (fun m => (sender m, textContent m))
    (chatWindow
       (run initial
          [Typed "A"; SubmitEvent; Typed "B"; SubmitEvent;
           Settled 1 (Response 200 (JsonObject {| reply := Val "b" |}));
           Settled 0 (Response 200 (JsonObject {| reply := Val "a" |}))]))
  = [(user, "A"); (user, "B"); (ai, "b"); (ai, "a")].
Proof.
  rewrite (script_answers_in_arrival_order initial "A" "B"
             (Response 200 (JsonObject {| reply := Val "a" |}))
             (Response 200 (JsonObject {| reply := Val "b" |})));
    try reflexivity.
  exists []. reflexivity.
Defined.

End ScriptInvariants.

(** ** The order-status script: the URL *)

(** Arithmetic with division and remainder by constants. *)
Ltac ndiv := zify; Z.to_euclidean_division_equations; lia.

Section LookupUrl.
Import JS Net OrderStatus.

Lemma all_url_safe_app (a b : string) :
  all_url_safe (a ++ b) = all_url_safe a && all_url_safe b.
Proof.
  induction a as [|c a IH]; simpl; [reflexivity|].
  rewrite IH, andb_assoc. reflexivity.
Qed.

Lemma code_bounded (u : UTF16.code_unit) : (UTF16.code u < 65536)%N.
Proof.
  unfold UTF16.code.
  pose proof (N_ascii_bounded (fst u)). pose proof (N_ascii_bounded (snd u)). lia.
Qed.

Lemma code_injective (u v : UTF16.code_unit) : UTF16.code u = UTF16.code v -> u = v.
Proof.
  destruct u as [a b], v as [c d]. unfold UTF16.code. cbn [fst snd]. intros E.
  pose proof (N_ascii_bounded a). pose proof (N_ascii_bounded b).
  pose proof (N_ascii_bounded c). pose proof (N_ascii_bounded d).
  assert (N_of_ascii a = N_of_ascii c) as E1 by lia.
  assert (N_of_ascii b = N_of_ascii d) as E2 by lia.
  rewrite <- (ascii_N_embedding a), <- (ascii_N_embedding b), E1, E2,
    !ascii_N_embedding.
  reflexivity.
Qed.

(** Induction on a wide string that also gives the tail of the tail. *)
Lemma wide_pair_ind (P : UTF16.wide -> Prop) :
  P [] -> (forall u, P [u]) ->
  (forall u l r, P r -> P (l :: r) -> P (u :: l :: r)) ->
  forall s, P s.
Proof.
  intros H0 H1 H2 s.
  assert (P s /\ forall u, P (u :: s)) as [H _]; [|exact H].
  induction s as [|l r [IH1 IH2]]; [split; [exact H0 | exact H1]|].
  split; [apply IH2|]. intros u. apply H2; [exact IH1 | apply IH2].
Qed.

(** What [codePoints] read at the head of a string it accepts. *)
Lemma codePoints_cons (s : UTF16.wide) (cp : N) (rest : list N) :
  UTF16.codePoints s = Some (cp :: rest) ->
  (exists u r,
      s = u :: r /\ UTF16.is_high_surrogate u = false /\
      UTF16.is_low_surrogate u = false /\
      cp = UTF16.code u /\ UTF16.codePoints r = Some rest) \/
  (exists u l r,
      s = u :: l :: r /\ UTF16.is_high_surrogate u = true /\
      UTF16.is_low_surrogate l = true /\
      cp = (65536 + (UTF16.code u - 55296) * 1024 + (UTF16.code l - 56320))%N /\
      UTF16.codePoints r = Some rest).
Proof.
  destruct s as [|u r]; [discriminate|]. cbn [UTF16.codePoints].
  destruct (UTF16.is_high_surrogate u) eqn:H.
  - destruct r as [|l r]; [discriminate|].
    destruct (UTF16.is_low_surrogate l) eqn:L; [|discriminate].
    destruct (UTF16.codePoints r) as [cps|] eqn:R; cbn [option_map]; [|discriminate].
    intros [= <- <-]. right. exists u, l, r. repeat split; assumption.
  - destruct (UTF16.is_low_surrogate u) eqn:L; [discriminate|].
    destruct (UTF16.codePoints r) as [cps|] eqn:R; cbn [option_map]; [|discriminate].
    intros [= <- <-]. left. exists u, r. repeat split; assumption.
Qed.

Lemma codePoints_nil (s : UTF16.wide) : UTF16.codePoints s = Some [] -> s = [].
Proof.
  destruct s as [|u r]; [reflexivity|]. cbn [UTF16.codePoints].
  destruct (UTF16.is_high_surrogate u).
  - destruct r as [|l r]; [discriminate|].
    destruct (UTF16.is_low_surrogate l); [|discriminate].
    destruct (UTF16.codePoints r); discriminate.
  - destruct (UTF16.is_low_surrogate u); [discriminate|].
    destruct (UTF16.codePoints r); discriminate.
Qed.

Lemma surrogate_ranges (u : UTF16.code_unit) :
  (UTF16.is_high_surrogate u = true -> 55296 <= UTF16.code u <= 56319)%N /\
  (UTF16.is_low_surrogate u = true -> 56320 <= UTF16.code u <= 57343)%N /\
  (UTF16.is_high_surrogate u = false -> UTF16.is_low_surrogate u = false ->
   UTF16.code u < 55296 \/ 57343 < UTF16.code u)%N.
Proof.
  unfold UTF16.is_high_surrogate, UTF16.is_low_surrogate.
  repeat split; intros;
    repeat match goal with
           | H : _ && _ = true |- _ => apply andb_true_iff in H as [? ?]
           | H : _ && _ = false |- _ => apply andb_false_iff in H as [?|?]
           | H : (_ <=? _)%N = true |- _ => apply N.leb_le in H
           | H : (_ <=? _)%N = false |- _ => apply N.leb_gt in H
           end; lia.
Qed.

Lemma codePoints_bounded (s : UTF16.wide) :
  forall cps, UTF16.codePoints s = Some cps -> Forall (fun cp => (cp < 1114112)%N) cps.
Proof.
  intros cps. revert s. induction cps as [|cp rest IH]; intros s E; [constructor|].
  destruct (codePoints_cons s cp rest E)
    as [(u & r & -> & _ & _ & -> & R) | (u & l & r & -> & H & L & -> & R)].
  - constructor; [pose proof (code_bounded u); lia | apply (IH r R)].
  - constructor; [|apply (IH r R)].
    apply (proj1 (surrogate_ranges u)) in H.
    apply (proj1 (proj2 (surrogate_ranges l))) in L. lia.
Qed.

Lemma percent_safe (b : N) : (b < 256)%N -> all_url_safe (percent b) = true.
Proof.
  intros B. rewrite <- (N_ascii_embedding b B).
  destruct (ascii_of_N b) as [[|] [|] [|] [|] [|] [|] [|] [|]]; reflexivity.
Qed.

Lemma unescape_percent (b : N) (rest : string) :
  (b < 256)%N -> unescape_octet (percent b ++ rest) = Some (b, rest).
Proof.
  intros B. rewrite <- (N_ascii_embedding b B).
  destruct (ascii_of_N b) as [[|] [|] [|] [|] [|] [|] [|] [|]]; reflexivity.
Qed.

Lemma encode_point_safe (cp : N) :
  (cp < 1114112)%N -> all_url_safe (UTF16.encode_point cp) = true.
Proof.
  intros B. unfold UTF16.encode_point.
  destruct ((cp <? 128)%N && is_unreserved (ascii_of_N cp)) eqn:U.
  - apply andb_true_iff in U as [_ U]. simpl. unfold url_safe. rewrite U. reflexivity.
  - unfold UTF16.utf8.
    destruct (cp <? 128)%N eqn:C1; [apply N.ltb_lt in C1|apply N.ltb_ge in C1].
    { cbn [map]. rewrite concat_cons, all_url_safe_app, percent_safe by lia.
      reflexivity. }
    destruct (cp <? 2048)%N eqn:C2; [apply N.ltb_lt in C2|apply N.ltb_ge in C2].
    { cbn [map]. rewrite !concat_cons, !all_url_safe_app, !percent_safe by ndiv.
      reflexivity. }
    destruct (cp <? 65536)%N eqn:C3; [apply N.ltb_lt in C3|apply N.ltb_ge in C3].
    { cbn [map]. rewrite !concat_cons, !all_url_safe_app, !percent_safe by ndiv.
      reflexivity. }
    cbn [map]. rewrite !concat_cons, !all_url_safe_app, !percent_safe by ndiv.
    reflexivity.
Qed.

Lemma encode_point_not_empty (cp : N) : UTF16.encode_point cp <> EmptyString.
Proof.
  unfold UTF16.encode_point.
  destruct ((cp <? 128)%N && is_unreserved (ascii_of_N cp)); [discriminate|].
  unfold UTF16.utf8.
  destruct (cp <? 128)%N; [|destruct (cp <? 2048)%N; [|destruct (cp <? 65536)%N]];
    cbn [map]; rewrite concat_cons; discriminate.
Qed.

Lemma encodeURIComponent_safe (s : UTF16.wide) (segment : string) :
  UTF16.encodeURIComponent s = Some segment ->
  all_url_safe segment = true /\ (s <> [] -> segment <> EmptyString).
Proof.
  unfold UTF16.encodeURIComponent.
  destruct (UTF16.codePoints s) as [cps|] eqn:E; [|discriminate].
  intros [= <-]. split.
  - pose proof (codePoints_bounded s cps E) as B. clear E.
    induction B as [|cp cps Hcp B IH]; [reflexivity|].
    cbn [map]. rewrite concat_cons, all_url_safe_app, (encode_point_safe cp Hcp), IH.
    reflexivity.
  - intros N. destruct cps as [|cp cps]; [apply codePoints_nil in E; contradiction|].
    cbn [map]. rewrite concat_cons.
    pose proof (encode_point_not_empty cp) as Ne.
    destruct (UTF16.encode_point cp); [contradiction | discriminate].
Qed.

Lemma decode_encode_point (cp : N) (rest : string) :
  (cp < 1114112)%N ->
  decode_point (UTF16.encode_point cp ++ rest) = Some (cp, rest).
Proof.
  intros B.
  destruct (cp <? 256)%N eqn:C0.
  { apply N.ltb_lt in C0. rewrite <- (N_ascii_embedding cp C0).
    destruct (ascii_of_N cp) as [[|] [|] [|] [|] [|] [|] [|] [|]]; reflexivity. }
  apply N.ltb_ge in C0.
  unfold UTF16.encode_point, UTF16.utf8.
  assert ((cp <? 128)%N = false) as -> by (apply N.ltb_ge; lia).
  cbn [andb].
  destruct (cp <? 2048)%N eqn:C2; [apply N.ltb_lt in C2|apply N.ltb_ge in C2].
  { cbn [map]. rewrite !concat_cons. cbn [String.concat].
    rewrite append_nil_r, append_assoc.
    unfold decode_point.
    rewrite unescape_percent by ndiv.
    assert ((192 + cp / 64 <? 128)%N = false) as -> by (apply N.ltb_ge; ndiv).
    rewrite unescape_percent by ndiv.
    assert ((192 + cp / 64 <? 224)%N = true) as -> by (apply N.ltb_lt; ndiv).
    f_equal. f_equal. ndiv. }
  destruct (cp <? 65536)%N eqn:C3; [apply N.ltb_lt in C3|apply N.ltb_ge in C3].
  { cbn [map]. rewrite !concat_cons. cbn [String.concat].
    rewrite append_nil_r, !append_assoc.
    unfold decode_point.
    rewrite unescape_percent by ndiv.
    assert ((224 + cp / 4096 <? 128)%N = false) as -> by (apply N.ltb_ge; ndiv).
    rewrite unescape_percent by ndiv.
    assert ((224 + cp / 4096 <? 224)%N = false) as -> by (apply N.ltb_ge; ndiv).
    rewrite unescape_percent by ndiv.
    assert ((224 + cp / 4096 <? 240)%N = true) as -> by (apply N.ltb_lt; ndiv).
    f_equal. f_equal. ndiv. }
  cbn [map]. rewrite !concat_cons. cbn [String.concat].
  rewrite append_nil_r, !append_assoc.
  unfold decode_point.
  rewrite unescape_percent by ndiv.
  assert ((240 + cp / 262144 <? 128)%N = false) as -> by (apply N.ltb_ge; ndiv).
  rewrite unescape_percent by ndiv.
  assert ((240 + cp / 262144 <? 224)%N = false) as -> by (apply N.ltb_ge; ndiv).
  rewrite unescape_percent by ndiv.
  assert ((240 + cp / 262144 <? 240)%N = false) as -> by (apply N.ltb_ge; ndiv).
  rewrite unescape_percent by ndiv.
  f_equal. f_equal. ndiv.
Qed.

Lemma encode_points_injective (cps1 cps2 : list N) :
  Forall (fun cp => (cp < 1114112)%N) cps1 ->
  Forall (fun cp => (cp < 1114112)%N) cps2 ->
  String.concat EmptyString (map UTF16.encode_point cps1)
  = String.concat EmptyString (map UTF16.encode_point cps2) ->
  cps1 = cps2.
Proof.
  intros B1. revert cps2. induction B1 as [|c1 cps1 H1 B1 IH]; intros cps2 B2 E.
  - destruct B2 as [|c2 cps2 H2 B2]; [reflexivity|].
    cbn [map] in E. rewrite concat_cons in E.
    apply (f_equal decode_point) in E. rewrite (decode_encode_point c2 _ H2) in E.
    discriminate.
  - destruct B2 as [|c2 cps2 H2 B2].
    + cbn [map] in E. rewrite concat_cons in E.
      apply (f_equal decode_point) in E. rewrite (decode_encode_point c1 _ H1) in E.
      discriminate.
    + cbn [map] in E. rewrite !concat_cons in E.
      apply (f_equal decode_point) in E.
      rewrite (decode_encode_point c1 _ H1), (decode_encode_point c2 _ H2) in E.
      injection E as -> E. rewrite (IH cps2 B2 E). reflexivity.
Qed.

Lemma codePoints_injective (cps : list N) :
  forall a b,
    UTF16.codePoints a = Some cps -> UTF16.codePoints b = Some cps -> a = b.
Proof.
  induction cps as [|cp rest IH]; intros a b A B.
  - rewrite (codePoints_nil a A), (codePoints_nil b B). reflexivity.
  - destruct (codePoints_cons a cp rest A)
      as [(u & r & -> & Hu & Lu & Eu & R) | (u & l & r & -> & Hu & Ll & Eu & R)];
    destruct (codePoints_cons b cp rest B)
      as [(v & q & -> & Hv & Lv & Ev & Q) | (v & m & q & -> & Hv & Lm & Ev & Q)].
    + rewrite (IH r q R Q). f_equal. apply code_injective. congruence.
    + exfalso. pose proof (code_bounded u).
      apply (proj1 (surrogate_ranges v)) in Hv.
      apply (proj1 (proj2 (surrogate_ranges m))) in Lm. lia.
    + exfalso. pose proof (code_bounded v).
      apply (proj1 (surrogate_ranges u)) in Hu.
      apply (proj1 (proj2 (surrogate_ranges l))) in Ll. lia.
    + rewrite (IH r q R Q).
      apply (proj1 (surrogate_ranges u)) in Hu.
      apply (proj1 (proj2 (surrogate_ranges l))) in Ll.
      apply (proj1 (surrogate_ranges v)) in Hv.
      apply (proj1 (proj2 (surrogate_ranges m))) in Lm.
      assert (UTF16.code u = UTF16.code v) as E1 by lia.
      assert (UTF16.code l = UTF16.code m) as E2 by lia.
      rewrite (code_injective u v E1), (code_injective l m E2). reflexivity.
Qed.

Lemma encodeURIComponent_injective (a b : UTF16.wide) (segment : string) :
  UTF16.encodeURIComponent a = Some segment ->
  UTF16.encodeURIComponent b = Some segment ->
  a = b.
Proof.
  unfold UTF16.encodeURIComponent.
  destruct (UTF16.codePoints a) as [cpa|] eqn:A; [|discriminate].
  destruct (UTF16.codePoints b) as [cpb|] eqn:B; [|discriminate].
  intros [= <-] [= E].
  assert (cpb = cpa) as ->.
  { apply encode_points_injective;
      [apply (codePoints_bounded b), B | apply (codePoints_bounded a), A | exact E]. }
  apply (codePoints_injective cpa a b A B).
Qed.

Lemma append_cancel (p a b : string) : p ++ a = p ++ b -> a = b.
Proof. induction p as [|c p IH]; simpl; [auto|]. intros [= E]. apply IH, E. Qed.

(** X13: the URL of a lookup determines the customer name it was made
    for: two lookups that fetch the same URL were made for the same trimmed
    name, so no two different queries are ever sent to the same address. *)
Theorem lookup_url_determines_name (st1 st2 : state) :
  fetched (submit st1) <> fetched st1 ->
  fetched (submit st2) <> fetched st2 ->
  last (fetched (submit st1)) EmptyString = last (fetched (submit st2)) EmptyString ->
  UTF16.trim (nameInput_value st1) = UTF16.trim (nameInput_value st2).
Proof.
  intros C1 C2.
  destruct (wide_blank (nameInput_value st1)) eqn:B1;
    [rewrite (lookup_blank st1 B1) in C1; contradiction|].
  destruct (wide_blank (nameInput_value st2)) eqn:B2;
    [rewrite (lookup_blank st2 B2) in C2; contradiction|].
  destruct (UTF16.encodeURIComponent (UTF16.trim (nameInput_value st1)))
    as [seg1|] eqn:E1; [|rewrite (lookup_throws st1 E1) in C1; contradiction].
  destruct (UTF16.encodeURIComponent (UTF16.trim (nameInput_value st2)))
    as [seg2|] eqn:E2; [|rewrite (lookup_throws st2 E2) in C2; contradiction].
  rewrite (lookup_not_blank st1 seg1 B1 E1), (lookup_not_blank st2 seg2 B2 E2).
  cbn [fetched]. rewrite !last_last. intros E.
  apply (append_cancel API_BASE_URL) in E. subst seg2.
  apply (encodeURIComponent_injective _ _ seg1 E1 E2).
Qed.

Lemma lookup_url_determines_name_witness :
  UTF16.trim (nameInput_value (set_value (UTF16.of_string " Ada ") initial))
  = UTF16.trim
      (nameInput_value
         (set_value (UTF16.of_string "Ada") (set_innerHTML "<p>old</p>" initial))).
Proof.
  apply lookup_url_determines_name; [discriminate | discriminate | reflexivity].
Defined.

Lemma lookup_urls_step (host : Host) (st : state) (e : event) :
  Forall lookup_url (fetched st) -> Forall lookup_url (fetched (step host st e)).
Proof.
  intros F. destruct e as [text | | k r]; simpl.
  - exact F.
  - destruct (wide_blank (nameInput_value st)) eqn:B;
      [rewrite (lookup_blank st B); exact F|].
    destruct (UTF16.encodeURIComponent (UTF16.trim (nameInput_value st)))
      as [segment|] eqn:E; [|rewrite (lookup_throws st E); exact F].
    rewrite (lookup_not_blank st segment B E). cbn [fetched].
    apply Forall_app. split; [exact F|]. constructor; [|constructor].
    exists segment. split; [reflexivity|].
    destruct (encodeURIComponent_safe _ _ E) as (S & N).
    split; [apply N, wide_trim_not_empty, B | exact S].
  - destruct (nth_error (in_flight st) k); [|exact F].
    destruct (on_settled_keeps_requests host r (resume k st)) as (_ & _ & ->).
    exact F.
Qed.

(** X12: every URL the lookup has fetched in a reachable state is the base
    URL followed by one non-empty path segment in which every character is
    unreserved or the percent sign of an escape: whatever the customer
    types (slashes, question marks, spaces), the string handed to [fetch]
    has this shape. *)
Theorem lookup_urls_stay_on_route (host : Host) (st : state) :
  lookup_reachable host st -> Forall lookup_url (fetched st).
Proof.
  intros [events ->]. unfold run.
  assert (forall s, Forall lookup_url (fetched s) ->
                    Forall lookup_url (fetched (fold_left (step host) events s))) as K.
  { induction events as [|e events IH]; intros s F; simpl; [exact F|].
    apply IH, lookup_urls_step, F. }
  apply K. constructor.
Qed.

Lemma lookup_urls_stay_on_route_witness :
  Forall lookup_url
    (fetched (run sample_host initial
                [Typed (UTF16.of_string "../admin?x=1#y"); SubmitEvent;
                 Typed (UTF16.of_string " O'Neil & Sons "); SubmitEvent])).
Proof.
  apply (lookup_urls_stay_on_route sample_host). eexists. reflexivity.
Defined.

End LookupUrl.

(** ** The order-status script: settling *)

Section LookupSettling.
Import JS Net OrderStatus.

Variable host : Host.

Lemma lookup_typed_submit_fields (st : state) (text : UTF16.wide) (segment : string) :
  wide_blank text = false ->
  UTF16.encodeURIComponent (UTF16.trim text) = Some segment ->
  let s := run host st [Typed text; SubmitEvent] in
  nameInput_value s = text /\
  in_flight s = (in_flight st ++ [(API_BASE_URL ++ segment)%string])%list /\
  fetched s = (fetched st ++ [(API_BASE_URL ++ segment)%string])%list.
Proof.
  intros B E. cbv zeta.
  change (run host st [Typed text; SubmitEvent]) with (submit (set_value text st)).
  rewrite (lookup_not_blank (set_value text st) segment B E). repeat split.
Qed.

Lemma lookup_settled_fields (st : state) (k : nat) (awaited : string)
  (r : settled payload) :
  nth_error (in_flight st) k = Some awaited ->
  let s := step host st (Settled k r) in
  resultsContainer_innerHTML s = rendered host r /\
  nameInput_value s = nameInput_value st /\
  in_flight s = ChatAgent.remove_nth k (in_flight st) /\
  fetched s = fetched st.
Proof.
  intros N. cbv zeta. unfold step. rewrite N.
  rewrite on_settled_innerHTML.
  destruct (on_settled_keeps_requests host r (resume k st)) as (-> & -> & ->).
  repeat split.
Qed.

(** X14: the lookup has no guard against overlapping requests, and the
    container shows whatever settled last.  When a second query is
    submitted while the first is outstanding and the first settles after
    the second, the page ends up showing the result of the first query,
    while the input field holds the second. *)
Theorem lookup_last_settled_wins
  (st : state) (first second : UTF16.wide) (called1 called2 : string)
  (r1 r2 : settled payload) :
  in_flight st = [] ->
  wide_blank first = false -> wide_blank second = false ->
  UTF16.encodeURIComponent (UTF16.trim first) = Some called1 ->
  UTF16.encodeURIComponent (UTF16.trim second) = Some called2 ->
  let st' :=
    run host st [Typed first; SubmitEvent; Typed second; SubmitEvent;
                 Settled 1 r2; Settled 0 r1] in
  resultsContainer_innerHTML st' = rendered host r1 /\
  nameInput_value st' = second /\
  in_flight st' = [] /\
  fetched st'
  = (fetched st
     ++ [(API_BASE_URL ++ called1)%string; (API_BASE_URL ++ called2)%string])%list.
Proof.
  intros F B1 B2 E1 E2. cbv zeta.
  change (run host st [Typed first; SubmitEvent; Typed second; SubmitEvent;
                       Settled 1 r2; Settled 0 r1])
    with (step host
            (step host
               (run host (run host st [Typed first; SubmitEvent])
                  [Typed second; SubmitEvent])
               (Settled 1 r2))
            (Settled 0 r1)).
  destruct (lookup_typed_submit_fields st first called1 B1 E1) as (_ & I1 & C1).
  set (s1 := run host st [Typed first; SubmitEvent]) in *.
  destruct (lookup_typed_submit_fields s1 second called2 B2 E2) as (V2 & I2 & C2).
  set (s2 := run host s1 [Typed second; SubmitEvent]) in *.
  rewrite I1, F in I2. cbn [app] in I2.
  destruct (lookup_settled_fields s2 1 _ r2 ltac:(rewrite I2; reflexivity))
    as (_ & V3 & I3 & C3).
  set (s3 := step host s2 (Settled 1 r2)) in *.
  rewrite I2 in I3. cbn [ChatAgent.remove_nth] in I3.
  destruct (lookup_settled_fields s3 0 _ r1 ltac:(rewrite I3; reflexivity))
    as (H4 & V4 & I4 & C4).
  rewrite H4, V4, V3, V2, I4, I3, C4, C3, C2, C1, <- app_assoc.
  repeat split.
Qed.


End LookupSettling.

Section LookupSettlingExamples.
Import JS Net OrderStatus.

Lemma lookup_last_settled_wins_witness :
  let st' :=
    run sample_host initial
      [Typed (UTF16.of_string "Ada"); SubmitEvent;
       Typed (UTF16.of_string "Bob"); SubmitEvent;
       Settled 1 (Response 404 (JsonObject not_found));
       Settled 0 (Response 200 (JsonObject open_order))] in
  resultsContainer_innerHTML st'
  = rendered sample_host (Response 200 (JsonObject open_order)) /\
  nameInput_value st' = UTF16.of_string "Bob".
Proof.
  destruct (lookup_last_settled_wins sample_host initial
              (UTF16.of_string "Ada") (UTF16.of_string "Bob") "Ada" "Bob"
              (Response 200 (JsonObject open_order))
              (Response 404 (JsonObject not_found))
              eq_refl eq_refl eq_refl eq_refl eq_refl) as (A & B & _).
  split; [exact A | exact B].
Defined.


End LookupSettlingExamples.

(** ** The order-status script: dates, amounts and the container *)

Section LookupRendering.
Import JS Net OrderStatus.

Variable host : Host.

Lemma before_T_no_T (d : string) : no_T d = true -> before_T d = d.
Proof.
  induction d as [|c d IH]; simpl; [reflexivity|].
  destruct (Ascii.eqb c "T"); simpl; [discriminate|].
  intros H. rewrite (IH H). reflexivity.
Qed.

Lemma before_T_app (d t : string) :
  no_T d = true -> before_T (d ++ String "T" t) = d.
Proof.
  induction d as [|c d IH]; simpl; [reflexivity|].
  destruct (Ascii.eqb c "T"); simpl; [discriminate|].
  intros H. rewrite (IH H). reflexivity.
Qed.

(** X15: a workflow date is rendered from its date part alone.  For a
    non-empty date [d] without a 'T', the value [d] and every value
    [d ++ "T" ++ time] render as the host's date rendering of [d]: the time
    of day never reaches the page. *)
Theorem formatDate_drops_time (d : string) :
  no_T d = true -> d <> EmptyString ->
  formatDate host (Val d) = toLocaleDateString host d /\
  (forall time, formatDate host (Val (d ++ String "T" time))
                = toLocaleDateString host d).
Proof.
  intros N E. destruct d as [|c d]; [contradiction|]. split.
  - unfold formatDate. cbn [field_falsy string_falsy interpolate].
    rewrite (before_T_no_T _ N). reflexivity.
  - intros time. unfold formatDate.
    cbn [append field_falsy string_falsy interpolate].
    change (String c (d ++ String "T" time)) with (String c d ++ String "T" time).
    rewrite (before_T_app _ _ N). reflexivity.
Qed.

(** X17: a non-2xx response whose JSON object has no [detail] is not
    caught: the container shows the red paragraph with the text
    "undefined" (or "null" when [detail] is null), and only the response
    data is logged, no error. *)
Theorem lookup_missing_detail (st : state) (status : Z) (data : payload) :
  ok status = false ->
  let st' := on_settled host (Response status (JsonObject data)) st in
  (detail data = Undefined ->
   resultsContainer_innerHTML st'
   = "<p style=" ++ dq ++ "color: red;" ++ dq ++ ">undefined</p>") /\
  (detail data = Null ->
   resultsContainer_innerHTML st'
   = "<p style=" ++ dq ++ "color: red;" ++ dq ++ ">null</p>") /\
  console st' = (console st ++ [logged data])%list.
Proof.
  intros K st'. unfold st', on_settled, try_block. rewrite K.
  cbn [negb log_data set_innerHTML console_add resultsContainer_innerHTML console].
  unfold detail_markup.
  repeat split; intros E; rewrite E; reflexivity.
Qed.

Lemma add_zero_right (f : field number) : add (or_zero f) zero = or_zero f.
Proof. destruct f as [| |[[|] | [|] | |[|] m e]]; reflexivity. Qed.

Lemma add_zero_left (f : field number) : add zero (or_zero f) = or_zero f.
Proof. destruct f as [| |[[|] | [|] | |[|] m e]]; reflexivity. Qed.

(** X19: when one of the two prices is missing, null or zero, the total
    cost line shows the same text as the line of the other price. *)
Theorem total_cost_with_one_price (data : payload) (s : RenderedSummary) :
  substitutions host data = inr s ->
  (or_zero (boardPrice data) = zero -> r_totalCost s = r_mountPrice s) /\
  (or_zero (mountPrice data) = zero -> r_totalCost s = r_boardPrice s).
Proof.
  unfold substitutions. destruct (balance data); try discriminate.
  intros [= <-]. cbn [r_totalCost r_mountPrice r_boardPrice]. unfold totalCost.
  split; intros ->; [rewrite add_zero_right | rewrite add_zero_left]; reflexivity.
Qed.

Lemma container_state_step (st : state) (e : event) :
  container_state st -> container_state (step host st e).
Proof.
  intros C. destruct e as [text | | k r]; simpl.
  - exact C.
  - destruct (wide_blank (nameInput_value st)) eqn:B;
      [rewrite (lookup_blank st B); exact C|].
    destruct (UTF16.encodeURIComponent (UTF16.trim (nameInput_value st)))
      as [segment|] eqn:E; [|rewrite (lookup_throws st E); exact C].
    rewrite (lookup_not_blank st segment B E). right.
    cbn [fetched resultsContainer_display].
    split; [|reflexivity]. intros E'. apply app_eq_nil in E' as (_ & E'). discriminate.
  - destruct (nth_error (in_flight st) k) as [awaited|] eqn:N; [|exact C].
    destruct C as [(_ & I & _) | (F & D)].
    + rewrite I in N. destruct k; discriminate.
    + right.
      destruct (on_settled_keeps_requests host r (resume k st)) as (_ & _ & ->).
      split; [exact F|].
      unfold on_settled. destruct (try_block host r);
        destruct r as [|status [| | |data]]; exact D.
Qed.

(** X20: in every reachable state the results container is shown
    ([display: block]) exactly when a lookup has been made, and before the
    first lookup the script has written nothing into it; once shown it is
    never hidden again. *)
Theorem lookup_container_shown_after_first_lookup (st : state) :
  lookup_reachable host st ->
  (resultsContainer_display st = "block" <-> fetched st <> []) /\
  (fetched st = [] -> resultsContainer_innerHTML st = EmptyString).
Proof.
  intros [events ->]. unfold run.
  assert (forall s, container_state s ->
                    container_state (fold_left (step host) events s)) as K.
  { induction events as [|e events IH]; intros s C; simpl; [exact C|].
    apply IH, container_state_step, C. }
  destruct (K initial) as [(F & _ & D & H) | (F & D)].
  - left. repeat split.
  - rewrite F, D, H. repeat split; try discriminate; congruence.
  - rewrite D. repeat split; try congruence.
Qed.

End LookupRendering.

Section LookupRenderingExamples.
Import JS Net OrderStatus.

Lemma formatDate_drops_time_witness :
  formatDate sample_host (Val "2024-03-01T00:00:00")
  = toLocaleDateString sample_host "2024-03-01".
Proof.
  apply (proj2 (formatDate_drops_time sample_host "2024-03-01" eq_refl
                  ltac:(discriminate)) "00:00:00").
Defined.

Lemma lookup_missing_detail_witness :
  resultsContainer_innerHTML
    (on_settled sample_host (Response 500 (JsonObject bare_order)) searching_for_Ada)
  = "<p style=" ++ dq ++ "color: red;" ++ dq ++ ">undefined</p>".
Proof.
  apply (proj1 (lookup_missing_detail sample_host searching_for_Ada 500 bare_order
                  eq_refl)).
  reflexivity.
Defined.

Lemma total_cost_with_one_price_witness :
  exists s,
    substitutions sample_host mount_only_order = inr s /\
    r_totalCost s = r_mountPrice s.
Proof.
  eexists. split; [reflexivity|].
  apply (proj1 (total_cost_with_one_price sample_host mount_only_order _ eq_refl)).
  reflexivity.
Defined.

Lemma lookup_container_shown_after_first_lookup_witness :
  let st :=
    run sample_host initial
      [Typed (UTF16.of_string "Ada"); SubmitEvent; Settled 0 Rejected] in
  resultsContainer_display st = "block" <-> fetched st <> [].
Proof.
  apply (lookup_container_shown_after_first_lookup sample_host).
  eexists. reflexivity.
Defined.

End LookupRenderingExamples.

(** ** Amounts: rounding to hundredths *)

Section Rounding.
Import JS.

(** X18: an amount that prints in positional notation prints the number of
    hundredths nearest to its exact value [m * 2^e], the larger one when
    two are equally near: for [e >= 0] the value is an integer and the
    count is exact; for [e < 0] the count [n] satisfies
    [n - 1/2 <= 100 * m / 2^(-e) < n + 1/2]. *)
Theorem toFixed_rounds_to_nearest_hundredth
  (big : number -> string) (s : bool) (m : positive) (e : Z) :
  ge_1e21 m e = false ->
  let n := Z.of_N (nearest_hundredths m e) in
  toFixed2 big (S754_finite s m e)
  = (if s then "-" else EmptyString) ++ point2 (nearest_hundredths m e) /\
  (0 <= e -> n = 100 * (Z.pos m * 2 ^ e))%Z /\
  (e < 0 ->
   2 ^ (- e) * (2 * n - 1) <= 200 * Z.pos m < 2 ^ (- e) * (2 * n + 1))%Z.
Proof.
  intros G n. split; [simpl; rewrite G; reflexivity|].
  unfold n, nearest_hundredths. split; intros E.
  - assert ((0 <=? e)%Z = true) as -> by (apply Z.leb_le; exact E).
    assert (0 < 2 ^ e)%Z by (apply Z.pow_pos_nonneg; lia).
    rewrite Z2N.id by nia. ring.
  - assert ((0 <=? e)%Z = false) as -> by (apply Z.leb_gt; exact E).
    set (d := (2 ^ (- e))%Z).
    assert (0 < d)%Z as D by (apply Z.pow_pos_nonneg; lia).
    set (q := ((2 * (Z.pos m * 100) + d) / (2 * d))%Z).
    assert (0 <= q)%Z as Q by (apply Z.div_pos; lia).
    rewrite Z2N.id by exact Q.
    pose proof (Z.mul_div_le (2 * (Z.pos m * 100) + d) (2 * d) ltac:(lia)) as Lo.
    pose proof (Z.mul_succ_div_gt (2 * (Z.pos m * 100) + d) (2 * d) ltac:(lia)) as Hi.
    fold q in Lo, Hi. nia.
Qed.

Lemma toFixed_rounds_to_nearest_hundredth_witness :
  toFixed2 (fun _ => "1e+21") (S754_finite false 9 (-3)) = "1.13" /\
  (2 ^ 3 * (2 * 113 - 1) <= 200 * 9 < 2 ^ 3 * (2 * 113 + 1))%Z.
Proof.
  destruct (toFixed_rounds_to_nearest_hundredth (fun _ => "1e+21") false 9 (-3) eq_refl)
    as (P & _ & B).
  split; [exact P | apply B; reflexivity].
Defined.

End Rounding.
